(** * pydsdl: composite types and parse errors

    A shallow embedding of [pydsdl/_serializable/_composite.py] and
    [pydsdl/error.py], with the properties of the composite-type
    construction pipeline stated over it.

    Python values are modelled as follows.
    - [int] is [Z]; a bit count or bit length, which is never negative, is [N];
      an alignment requirement, which is at least one bit, is [positive].
    - [str] is the list of its Unicode code points.
    - A raised exception is the [Raise] branch of [Result]; [assert] raises
      [AssertionError].
    - A class is a record of its attributes; a subclass record holds the
      record of its base class. *)

From Stdlib Require Import ZArith NArith PArith List String Ascii Lia Bool.
From stdpp Require Import base decidable option list numbers gmap sets.

Local Open Scope N_scope.
Set Warnings "-clear-no-such-hyp".

(** ** Python strings *)

Module Str.

(** A [str] is its sequence of code points. *)
Definition str : Type := list N.

(** A literal of the source, written as a Rocq string of ASCII characters. *)
Definition lit (s : string) : str :=
  List.map N_of_ascii (list_ascii_of_string s).

(** [str.isspace] for one character: the code points CPython's
    [_PyUnicode_IsWhitespace] accepts. *)
Definition isspace (c : N) : bool :=
  ((9 <=? c) && (c <=? 13)) || ((28 <=? c) && (c <=? 32))
  || (c =? 133) || (c =? 160) || (c =? 5760)
  || ((8192 <=? c) && (c <=? 8202))
  || (c =? 8232) || (c =? 8233) || (c =? 8239) || (c =? 8287) || (c =? 12288).

(** [s.lstrip()] *)
Fixpoint lstrip (s : str) : str :=
  match s with
  | c :: s' => if isspace c then lstrip s' else s
  | [] => []
  end.

(** [s.rstrip()] *)
Definition rstrip (s : str) : str := rev (lstrip (rev s)).

(** [s.strip()] *)
Definition strip (s : str) : str := rstrip (lstrip s).

(** [c in s] for a one-character [c] *)
Definition contains (c : N) (s : str) : bool := existsb (N.eqb c) s.

(** [s.split(sep)] for a one-character separator: never the empty list. *)
Fixpoint split (sep : N) (s : str) : list str :=
  match s with
  | [] => [[]]
  | c :: s' =>
      if c =? sep then [] :: split sep s'
      else match split sep s' with
           | w :: ws => (c :: w) :: ws
           | [] => [[c]]
           end
  end.

(** [s == t] *)
Definition eqb (s t : str) : bool := bool_decide (s = t).

(** [s.endswith(suffix)] *)
Definition endswith (s suffix : str) : bool :=
  eqb (skipn (length s - length suffix)%nat s) suffix
  && (length suffix <=? length s)%nat.

(** [bool(s)]: a string is true when it is not empty. *)
Definition truthy (s : str) : bool :=
  match s with [] => false | _ => true end.

End Str.

Abbreviation str := Str.str.

(** ** pydsdl/error.py *)

Module ParseError.

(** The location attributes of a [ParseError]; [None] is Python's [None]. *)
Record t := mk {
  text : str;
  _path : option str;
  _line : option Z
}.

(** [bool(x)] for an [Optional[str]] *)
Definition truthy_path (p : option str) : bool :=
  match p with Some s => Str.truthy s | None => false end.

(** [bool(x)] for an [Optional[int]] *)
Definition truthy_line (l : option Z) : bool :=
  match l with Some n => negb (n =? 0)%Z | None => false end.

Definition __init__ (text : str) (path : option str) (line : option Z) : t :=
  mk text path line.

(** [set_error_location_if_unknown]: the two guarded assignments. *)
Definition set_error_location_if_unknown
    (self : t) (path : option str) (line : option Z) : t :=
  let self :=
    if negb (truthy_path (_path self)) && truthy_path path
    then mk (text self) path (_line self) else self in
  let self :=
    if negb (truthy_line (_line self)) && truthy_line line
    then mk (text self) (_path self) line else self in
  self.

Definition path (self : t) : option str := _path self.
Definition line (self : t) : option Z := _line self.

End ParseError.

(** ** Exceptions *)

(** Which of its messages an [InvalidNameError] carries. *)
Inductive InvalidNameReason :=
| NameEmpty            (* 'Composite type name cannot be empty' *)
| NoRootNamespace      (* 'Root namespace is not specified' *)
| NameTooLong          (* 'Name is too long: ...' *)
| BadComponent.        (* raised by check_name on a component *)

(** Which of its messages a [MalformedUnionError] carries. *)
Inductive MalformedUnionReason :=
| TooFewVariants       (* 'A tagged union cannot contain fewer than 2 variants' *)
| PaddingNotAllowed.   (* 'Padding fields not allowed in unions' *)

Inductive Exception :=
| InvalidNameError (why : InvalidNameReason)
| InvalidVersionError
| AttributeNameCollisionError
| InvalidExtentError
| InvalidFixedPortIDError
| MalformedUnionError (why : MalformedUnionReason)
| DeprecatedDependencyError
| ValueError
| TypeError
| AttributeError
| AssertionError.

(** The outcome of a call: a returned value or a raised exception. *)
Inductive Result (A : Type) :=
| Ok (a : A)
| Raise (e : Exception).
Arguments Ok {A} a.
Arguments Raise {A} e.

#[export] Instance Result_ret : MRet Result := @Ok.
#[export] Instance Result_bind : MBind Result := λ A B f m,
  match m with Ok a => f a | Raise e => Raise e end.

(** [if c: raise e] *)
Definition raise_if (c : bool) (e : Exception) : Result unit :=
  if c then Raise e else Ok tt.

(** [assert c] *)
Definition py_assert (c : bool) : Result unit :=
  if c then Ok tt else Raise AssertionError.

(** ** Iterables *)

Module Iterable.

(** A [typing.Iterable] argument is either a container, which every loop
    walks from its start, or a one-shot iterator (a generator, say), which a
    loop leaves exhausted. *)
Inductive t (A : Type) :=
| Sequence (items : list A)
| Iterator (pending : list A).
Arguments Sequence {A} items.
Arguments Iterator {A} pending.

(** What one full iteration yields. *)
Definition items {A} (it : t A) : list A :=
  match it with Sequence l => l | Iterator l => l end.

(** The iterable after one full iteration. *)
Definition exhaust {A} (it : t A) : t A :=
  match it with Sequence l => Sequence l | Iterator _ => Iterator [] end.

End Iterable.

(** ** Bit length sets *)

Module BitLengthSet.

(** Modelled from the spec: [pydsdl/_bit_length_set.py] is not among the
    sources. A bit length set is "a finite set of non-negative integers";
    "equality is set equality". *)
Abbreviation t := (gset N).

(** [BitLengthSet()]: no values. *)
Definition empty : t := ∅.

(** [BitLengthSet(n)], "construction from a single integer (singleton)". *)
Definition of_int (n : N) : t := {[ n ]}.

(** [BitLengthSet(range(n))], "from an integer range". *)
Definition of_range (n : Z) : t :=
  list_to_set (N.of_nat <$> seq 0 (Z.to_nat n)).

(** [a | b], "union with another set". *)
Definition union (a b : t) : t := a ∪ b.

(** An empty running set stands for [{0}] when something is added to it:
    "an empty aggregate yields {0}, never an empty set". The source relies on
    it: a structure starts its running sum from [BitLengthSet()] and its unit
    test expects [{32}] for two 16-bit fields, while a union starts its
    running union from the same [BitLengthSet()] and expects [{24}], so
    [BitLengthSet()] is empty and the sum reads it as [{0}]. *)
Definition or_zero (s : t) : t := if decide (s = ∅) then {[ 0 ]} else s.

(** [a + b], "pointwise sum with another set (every pairwise sum of
    elements, deduplicated)", the left operand read as above. *)
Definition add (a b : t) : t :=
  set_bind (λ x, set_map (C:=gset N) (D:=gset N) (λ y, x + y) b) (or_zero a).

(** [a + n], "scalar addition (shift all elements by a constant)": the sum
    with the singleton. *)
Definition add_int (a : t) (n : N) : t := add a (of_int n).

(** One length padded "up to the next multiple of a given alignment
    (elements already aligned are unchanged)". *)
Definition pad_length (r : positive) (x : N) : N :=
  (x + (N.pos r - 1)) / N.pos r * N.pos r.

(** [s.pad_to_alignment(r)], "in-place padding of every element"; the call
    also evaluates to the padded set. *)
Definition pad_to_alignment (r : positive) (s : t) : t :=
  set_map (C:=gset N) (D:=gset N) (pad_length r) s.

(** [max(s)]: Python's [max] raises [ValueError] on an empty iterable. *)
Definition max (s : t) : Result N :=
  if decide (s = ∅) then Raise ValueError
  else Ok (foldr N.max 0 (elements s)).

End BitLengthSet.

(** ** Serializable types and attributes *)

(** Modelled from the spec: [SerializableType], [VoidType], the primitive and
    array types are not among the sources. "The minimal capability every
    field's data type must expose: its own bit-length set and its alignment
    requirement in bits"; a composite used as a data type also shows whether
    it is deprecated. A void type is "a fixed-width void filler"; it asks for
    no alignment (the unit test of the field iterators finds the [void3]
    field at offset 243, unpadded). *)
Inductive SerializableType :=
| VoidType (bit_length : N)
| PrimitiveOrArrayType (bls : BitLengthSet.t) (alignment : positive)
| CompositeTypeRef (is_deprecated : bool) (bls : BitLengthSet.t) (alignment : positive).

Definition type_bit_length_set (t : SerializableType) : BitLengthSet.t :=
  match t with
  | VoidType n => BitLengthSet.of_int n
  | PrimitiveOrArrayType s _ => s
  | CompositeTypeRef _ s _ => s
  end.

Definition type_alignment_requirement (t : SerializableType) : positive :=
  match t with
  | VoidType _ => 1
  | PrimitiveOrArrayType _ a => a
  | CompositeTypeRef _ _ a => a
  end.

(** [isinstance(t, VoidType)] *)
Definition is_VoidType (t : SerializableType) : bool :=
  match t with VoidType _ => true | _ => false end.

(** [isinstance(t, CompositeType) and t.deprecated] *)
Definition is_deprecated_composite (t : SerializableType) : bool :=
  match t with CompositeTypeRef d _ _ => d | _ => false end.

(** Modelled from the spec: [_attribute.py] is not among the sources. "Field
    (named, has a data type), PaddingField (unnamed, data type is a
    fixed-width void filler), Constant (named, has a data type and a
    compile-time value)". [PaddingField] is a subclass of [Field]: the unit
    test counts the padding among [fields] and not among
    [fields_except_padding]. The value of a constant plays no part here. *)
Inductive Attribute :=
| Field (data_type : SerializableType) (name : str)
| PaddingField (bit_length : N)
| Constant (data_type : SerializableType) (name : str).

Definition attribute_name (a : Attribute) : str :=
  match a with
  | Field _ n => n
  | PaddingField _ => []
  | Constant _ n => n
  end.

Definition attribute_data_type (a : Attribute) : SerializableType :=
  match a with
  | Field t _ => t
  | PaddingField n => VoidType n
  | Constant t _ => t
  end.

(** [isinstance(a, Field)] *)
Definition is_Field (a : Attribute) : bool :=
  match a with Field _ _ | PaddingField _ => true | Constant _ _ => false end.

(** [isinstance(a, PaddingField)] *)
Definition is_PaddingField (a : Attribute) : bool :=
  match a with PaddingField _ => true | _ => false end.

(** [isinstance(a, Constant)] *)
Definition is_Constant (a : Attribute) : bool :=
  match a with Constant _ _ => true | _ => false end.

(** Modelled from the spec: an unsigned integer type of [_primitive.py], as
    far as the tag and the delimiter header use it. *)
Inductive CastMode := SATURATED | TRUNCATED.
Record UnsignedIntegerType := mkUnsignedIntegerType {
  bit_length : N;
  cast_mode : CastMode
}.

(** ** Python's [max] *)

(** [max(a, *rest)]: with no further argument, [max] takes its only argument
    for an iterable, and an [int] is none: [TypeError]. *)
Definition py_max_args (a : positive) (rest : list positive) : Result positive :=
  match rest with
  | [] => Raise TypeError
  | _ => Ok (foldl Pos.max a rest)
  end.

(** [max(l)] of a list: [ValueError] when it is empty. *)
Definition py_max_list (l : list N) : Result N :=
  match l with
  | [] => Raise ValueError
  | x :: l' => Ok (foldl N.max x l')
  end.

(** ** pydsdl/_serializable/_composite.py *)

Record Version := mkVersion { major : Z; minor : Z }.

(** The class an object was created as. *)
Inductive Class := StructureTypeClass | UnionTypeClass | ServiceTypeClass.

(** A reference to an object: where it lives and what it is an instance of.
    [x is y] compares the addresses. *)
Record Ref := mkRef { address : N; class_of : Class }.

(** [isinstance(r, ServiceType)] *)
Definition is_ServiceType (c : Class) : bool :=
  match c with ServiceTypeClass => true | _ => false end.

(** What [_composite.py] imports from modules that are not among the sources:
    [check_name] of [_name.py], here [true] when it returns and [false] when
    it raises [InvalidNameError], and the two bounds of [_port_id_ranges.py]. *)
Class Imports := {
  check_name : str → bool;
  MAX_SUBJECT_ID : Z;
  MAX_SERVICE_ID : Z
}.

Definition MAX_NAME_LENGTH : nat := 50.
Definition MAX_VERSION_NUMBER : Z := 255.
Definition NAME_COMPONENT_SEPARATOR : N := 46.  (* '.' *)
Definition DEFAULT_DELIMITER_HEADER_BIT_LENGTH : N := 32.
(** Modelled from the spec: [SerializableType.BITS_PER_BYTE], "8 bits (one
    byte)". *)
Definition BITS_PER_BYTE : positive := 8.
Definition MIN_NUMBER_OF_VARIANTS : nat := 2.

(** The attributes of a [CompositeType] instance. *)
Record CompositeType := mkCompositeType {
  class : Class;
  _name : str;
  _version : Version;
  _attributes : list Attribute;
  _final : bool;
  _deprecated : bool;
  _fixed_port_id : option Z;
  _source_file_path : str;
  _parent_service : option Ref;
  _extent : Z
}.

(** *** Static methods of the concrete classes *)

(** [UnionType._compute_tag_bit_length]. [(n).bit_length()] is [N.size n];
    [math.ceil(math.log2(m))] is [N.log2_up m], which the floating-point
    computation meets for every [m] a list length can give (its logarithm is
    exact at the powers of two and lies well inside the gap between two
    integers elsewhere). *)
Definition UnionType_compute_tag_bit_length
    (field_types : list SerializableType) : Result N :=
  if (1 <? length field_types)%nat then
    let unaligned_tag_bit_length := N.size (N.of_nat (length field_types) - 1) in
    let tag_bit_length :=
      2 ^ N.log2_up (N.max (N.pos BITS_PER_BYTE) unaligned_tag_bit_length) in
    tag_bit_length ← py_max_list
      (tag_bit_length ::
         ((λ x, N.pos (type_alignment_requirement x)) <$> field_types));
    py_assert (bool_decide (tag_bit_length ∈ [8; 16; 32; 64]));;
    Ok tag_bit_length
  else Raise ValueError.

(** [UnionType.aggregate_bit_length_sets] *)
Definition UnionType_aggregate_bit_length_sets
    (field_types : list SerializableType) : Result BitLengthSet.t :=
  let ms := type_bit_length_set <$> field_types in
  match ms with
  | [] => Ok (BitLengthSet.of_int 0)
  | [m] => Ok m
  | _ =>
      let out := foldl BitLengthSet.union BitLengthSet.empty ms in
      tag ← UnionType_compute_tag_bit_length field_types;
      Ok (BitLengthSet.add_int out tag)
  end.

(** [StructureType.aggregate_bit_length_sets]: the loop body pads the running
    set in place and then adds the field's set to it. *)
Definition StructureType_aggregate_bit_length_sets
    (field_types : list SerializableType) : BitLengthSet.t :=
  foldl
    (λ bls t,
       let bls := BitLengthSet.pad_to_alignment (type_alignment_requirement t) bls in
       BitLengthSet.add bls (type_bit_length_set t))
    BitLengthSet.empty field_types.

(** *** [CompositeType] *)

(** The properties that read the attribute list only are written over the
    list, so that [__init__] can use them before the object is complete. *)

(** [fields]: [[a for a in self.attributes if isinstance(a, Field)]] *)
Definition fields_of (attributes : list Attribute) : list Attribute :=
  List.filter is_Field attributes.

(** [fields_except_padding] *)
Definition fields_except_padding_of (attributes : list Attribute) : list Attribute :=
  List.filter (λ a, is_Field a && negb (is_PaddingField a)) attributes.

(** [constants] *)
Definition constants_of (attributes : list Attribute) : list Attribute :=
  List.filter is_Constant attributes.

(** [alignment_requirement]:
    [max(self.BITS_PER_BYTE, *(x.data_type.alignment_requirement for x in self.fields))] *)
Definition alignment_requirement_of (attributes : list Attribute) : Result positive :=
  py_max_args BITS_PER_BYTE
    ((λ x, type_alignment_requirement (attribute_data_type x)) <$> fields_of attributes).

(** [_aggregate_bit_length_sets], abstract in [CompositeType]: what each
    class overrides it with. *)
Definition aggregate_bit_length_sets_of
    (cls : Class) (attributes : list Attribute) : Result BitLengthSet.t :=
  let field_types := attribute_data_type <$> fields_of attributes in
  match cls with
  | StructureTypeClass => Ok (StructureType_aggregate_bit_length_sets field_types)
  | UnionTypeClass => UnionType_aggregate_bit_length_sets field_types
  | ServiceTypeClass => Raise TypeError
  end.

(** The attribute check: the loop over [self._attributes] with its set of
    used names. *)
Fixpoint check_attribute_names (used_names : gset str) (attributes : list Attribute)
    : Result unit :=
  match attributes with
  | [] => Ok tt
  | a :: rest =>
      if Str.truthy (attribute_name a) && bool_decide (attribute_name a ∈ used_names)
      then Raise AttributeNameCollisionError
      else check_attribute_names ({[ attribute_name a ]} ∪ used_names) rest
  end.

Section Construction.
Context `{Imports}.

(** [CompositeType.__init__]; [cls] is the class of [self]. *)
Definition CompositeType_init (cls : Class)
    (name : str) (version : Version) (attributes : Iterable.t Attribute)
    (extent : option Z) (final deprecated : bool) (fixed_port_id : option Z)
    (source_file_path : str) (parent_service : option Ref)
    : Result CompositeType :=
  let _name := Str.strip name in
  let _attributes := Iterable.items attributes in
  match parent_service with
  | Some ps =>
      py_assert (Str.endswith _name (Str.lit ".Request")
                 || Str.endswith _name (Str.lit ".Response"));;
      raise_if (negb (is_ServiceType (class_of ps))) ValueError
  | None => Ok tt
  end;;
  (* Name check *)
  raise_if (negb (Str.truthy _name)) (InvalidNameError NameEmpty);;
  raise_if (negb (Str.contains NAME_COMPONENT_SEPARATOR _name))
    (InvalidNameError NoRootNamespace);;
  raise_if ((MAX_NAME_LENGTH <? length _name)%nat
            && bool_decide (parent_service = None))
    (InvalidNameError NameTooLong);;
  raise_if (negb (forallb check_name (Str.split NAME_COMPONENT_SEPARATOR _name)))
    (InvalidNameError BadComponent);;
  (* Version check *)
  let version_valid :=
    ((0 <=? major version) && (major version <=? MAX_VERSION_NUMBER)
     && ((0 <=? minor version) && (minor version <=? MAX_VERSION_NUMBER))
     && (0 <? major version + minor version))%Z in
  raise_if (negb version_valid) InvalidVersionError;;
  (* Attribute check *)
  check_attribute_names ∅ _attributes;;
  (* Port ID check *)
  match fixed_port_id with
  | Some port_id =>
      if is_ServiceType cls
      then raise_if (negb ((0 <=? port_id) && (port_id <=? MAX_SERVICE_ID))%Z)
             InvalidFixedPortIDError
      else raise_if (negb ((0 <=? port_id) && (port_id <=? MAX_SUBJECT_ID))%Z)
             InvalidFixedPortIDError
  | None => Ok tt
  end;;
  (* Consistent deprecation check *)
  raise_if (negb deprecated
            && existsb (λ a, is_deprecated_composite (attribute_data_type a)) _attributes)
    DeprecatedDependencyError;;
  (* Extent initialization *)
  aggregate ← aggregate_bit_length_sets_of cls _attributes;
  alignment_requirement ← alignment_requirement_of _attributes;
  minimal_extent ←
    BitLengthSet.max (BitLengthSet.pad_to_alignment alignment_requirement aggregate);
  _extent ←
    match extent with
    | None =>
        if final then Ok (Z.of_N minimal_extent)
        else
          aggregate ← aggregate_bit_length_sets_of cls _attributes;
          largest ← BitLengthSet.max aggregate;
          let unaligned := largest * 2 in
          padded ← BitLengthSet.max
            (BitLengthSet.pad_to_alignment alignment_requirement
               (BitLengthSet.of_int unaligned));
          Ok (Z.of_N padded)
    | Some extent => Ok extent
    end;
  (* Extent verification *)
  py_assert (BITS_PER_BYTE <=? alignment_requirement)%positive;;
  py_assert (N.pos alignment_requirement mod N.pos BITS_PER_BYTE =? 0);;
  raise_if (negb (_extent mod Z.pos alignment_requirement =? 0)%Z) InvalidExtentError;;
  raise_if (_extent <? Z.of_N minimal_extent)%Z InvalidExtentError;;
  raise_if (final && (Z.of_N minimal_extent <? _extent)%Z) InvalidExtentError;;
  (* Paranoid internal consistency validation *)
  py_assert (_extent mod Z.pos BITS_PER_BYTE =? 0)%Z;;
  py_assert (_extent mod Z.pos alignment_requirement =? 0)%Z;;
  py_assert (Z.of_N minimal_extent <=? _extent)%Z;;
  py_assert ((_extent =? Z.of_N minimal_extent)%Z || negb final);;
  Ok {| class := cls;
        _name := _name;
        _version := version;
        _attributes := _attributes;
        _final := final;
        _deprecated := deprecated;
        _fixed_port_id := fixed_port_id;
        _source_file_path := source_file_path;
        _parent_service := parent_service;
        _extent := _extent |}.

End Construction.

(** The read-only properties. *)
Definition full_name (self : CompositeType) : str := _name self.
Definition version (self : CompositeType) : Version := _version self.
Definition final (self : CompositeType) : bool := _final self.
Definition extent (self : CompositeType) : Z := _extent self.
Definition deprecated (self : CompositeType) : bool := _deprecated self.
Definition attributes (self : CompositeType) : list Attribute := _attributes self.
Definition fields (self : CompositeType) : list Attribute := fields_of (attributes self).
Definition fields_except_padding (self : CompositeType) : list Attribute :=
  fields_except_padding_of (attributes self).
Definition constants (self : CompositeType) : list Attribute :=
  constants_of (attributes self).
Definition fixed_port_id (self : CompositeType) : option Z := _fixed_port_id self.
Definition source_file_path (self : CompositeType) : str := _source_file_path self.
Definition parent_service (self : CompositeType) : option Ref := _parent_service self.

Definition alignment_requirement (self : CompositeType) : Result positive :=
  alignment_requirement_of (attributes self).

Definition _aggregate_bit_length_sets (self : CompositeType) : Result BitLengthSet.t :=
  aggregate_bit_length_sets_of (class self) (attributes self).

(** [delimiter_header_type] *)
Definition delimiter_header_type (self : CompositeType)
    : Result (option UnsignedIntegerType) :=
  if negb (final self) then
    let bit_length := DEFAULT_DELIMITER_HEADER_BIT_LENGTH in
    a ← alignment_requirement self;
    let bit_length := N.max bit_length (N.pos a) in
    Ok (Some (mkUnsignedIntegerType bit_length SATURATED))
  else Ok None.

(** [bit_length_set] *)
Definition bit_length_set (self : CompositeType) : Result BitLengthSet.t :=
  if final self then
    aggregate ← _aggregate_bit_length_sets self;
    a ← alignment_requirement self;
    Ok (BitLengthSet.pad_to_alignment a aggregate)
  else
    a ← alignment_requirement self;
    let padded :=
      BitLengthSet.pad_to_alignment a (BitLengthSet.of_range (extent self + 1)) in
    header ← delimiter_header_type self;
    match header with
    | Some u => Ok (BitLengthSet.add_int padded (bit_length u))
    | None => Raise AttributeError
    end.

(** What a field sees of a composite that serves as its data type. Reading
    the two properties of a constructed composite never raises (lemma
    [as_data_type_constructed]). *)
Definition as_data_type (c : CompositeType) : Result SerializableType :=
  bls ← bit_length_set c;
  a ← alignment_requirement c;
  Ok (CompositeTypeRef (deprecated c) bls a).

(** *** [UnionType] *)

Record UnionType := mkUnionType {
  union_base : CompositeType;
  _tag_field_type : UnsignedIntegerType
}.

(** [number_of_variants] *)
Definition number_of_variants (self : CompositeType) : nat := length (fields self).

Definition tag_field_type (self : UnionType) : UnsignedIntegerType :=
  _tag_field_type self.

Section Subclasses.
Context `{Imports}.

(** [UnionType.__init__]. The base class has walked [attributes] once when
    the loop over it starts. *)
Definition UnionType_init
    (name : str) (version : Version) (attributes : Iterable.t Attribute)
    (extent : option Z) (final deprecated : bool) (fixed_port_id : option Z)
    (source_file_path : str) (parent_service : option Ref)
    : Result UnionType :=
  self ← CompositeType_init UnionTypeClass name version attributes extent final
           deprecated fixed_port_id source_file_path parent_service;
  let attributes := Iterable.exhaust attributes in
  raise_if (number_of_variants self <? MIN_NUMBER_OF_VARIANTS)%nat
    (MalformedUnionError TooFewVariants);;
  raise_if
    (existsb
       (λ a, is_PaddingField a || negb (Str.truthy (attribute_name a))
             || is_VoidType (attribute_data_type a))
       (Iterable.items attributes))
    (MalformedUnionError PaddingNotAllowed);;
  tag ← UnionType_compute_tag_bit_length (attribute_data_type <$> fields self);
  Ok {| union_base := self;
        _tag_field_type := mkUnsignedIntegerType tag TRUNCATED |}.

(** [StructureType] has no [__init__] of its own. *)
Definition StructureType_init
    (name : str) (version : Version) (attributes : Iterable.t Attribute)
    (extent : option Z) (final deprecated : bool) (fixed_port_id : option Z)
    (source_file_path : str) (parent_service : option Ref)
    : Result CompositeType :=
  CompositeType_init StructureTypeClass name version attributes extent final
    deprecated fixed_port_id source_file_path parent_service.

End Subclasses.

(** *** [ServiceType] *)

(** [ServiceType.SchemaParams] *)
Record SchemaParams := mkSchemaParams {
  sp_attributes : list Attribute;
  sp_extent : option Z;
  is_union : bool;
  is_final : bool
}.

Definition SchemaParams_init (attributes : Iterable.t Attribute)
    (extent : option Z) (is_union is_final : bool) : SchemaParams :=
  mkSchemaParams (Iterable.items attributes) extent is_union is_final.

(** A request or response type: a union or a structure. *)
Inductive MessageType :=
| Structure (s : CompositeType)
| Union (u : UnionType).

Definition composite_of (m : MessageType) : CompositeType :=
  match m with Structure s => s | Union u => union_base u end.

Record ServiceType := mkServiceType {
  service_base : CompositeType;
  _request_type : MessageType;
  _response_type : MessageType
}.

Definition request_type (self : ServiceType) : MessageType := _request_type self.
Definition response_type (self : ServiceType) : MessageType := _response_type self.

Section Service.
Context `{Imports}.

(** [meta_type(...)] where [meta_type] is [UnionType] or [StructureType] *)
Definition MessageType_init (union : bool)
    (name : str) (version : Version) (attributes : Iterable.t Attribute)
    (extent : option Z) (final deprecated : bool) (fixed_port_id : option Z)
    (source_file_path : str) (parent_service : option Ref)
    : Result MessageType :=
  if union then
    u ← UnionType_init name version attributes extent final deprecated
          fixed_port_id source_file_path parent_service;
    Ok (Union u)
  else
    s ← StructureType_init name version attributes extent final deprecated
          fixed_port_id source_file_path parent_service;
    Ok (Structure s).

(** [ServiceType.__init__]; [self] is the address of the object under
    construction. *)
Definition ServiceType_init (self : N)
    (name : str) (version : Version)
    (request_params response_params : SchemaParams)
    (deprecated : bool) (fixed_port_id : option Z) (source_file_path : str)
    : Result ServiceType :=
  let self_ref := mkRef self ServiceTypeClass in
  _request_type ←
    MessageType_init (is_union request_params)
      (name ++ Str.lit ".Request") version
      (Iterable.Sequence (sp_attributes request_params))
      (sp_extent request_params) (is_final request_params)
      deprecated None (Str.lit "") (Some self_ref);
  _response_type ←
    MessageType_init (is_union response_params)
      (name ++ Str.lit ".Response") version
      (Iterable.Sequence (sp_attributes response_params))
      (sp_extent response_params) (is_final response_params)
      deprecated None (Str.lit "") (Some self_ref);
  request_data_type ← as_data_type (composite_of _request_type);
  response_data_type ← as_data_type (composite_of _response_type);
  let container_attributes :=
    [ Field request_data_type (Str.lit "request");
      Field response_data_type (Str.lit "response") ] in
  base ← CompositeType_init ServiceTypeClass name version
           (Iterable.Sequence container_attributes) None true deprecated
           fixed_port_id source_file_path None;
  py_assert (bool_decide
    (address <$> parent_service (composite_of _request_type) = Some self));;
  py_assert (bool_decide
    (address <$> parent_service (composite_of _response_type) = Some self));;
  Ok {| service_base := base;
        _request_type := _request_type;
        _response_type := _response_type |}.

End Service.

(** ** More of pydsdl/error.py *)

(** The decimal digits of a natural number, most significant first. *)
Fixpoint decimal_digits (fuel : nat) (n : N) (acc : str) : str :=
  match fuel with
  | O => acc
  | S fuel =>
      let acc := (48 + n mod 10) :: acc in
      if n <? 10 then acc else decimal_digits fuel (n / 10) acc
  end.

(** ['%d' % n] *)
Definition format_d (n : Z) : str :=
  let digits := decimal_digits (S (N.size_nat (Z.abs_N n))) (Z.abs_N n) [] in
  if (n <? 0)%Z then 45 :: digits else digits.

(** [Exception.__str__(self)] of an exception built from the one argument
    [text]. *)
Definition Exception_str (self : ParseError.t) : str := ParseError.text self.

(** [ParseError.__str__]; [default] only unwraps what the test before it has
    found set. *)
Definition ParseError_str (self : ParseError.t) : str :=
  let path := ParseError.path self in
  let line := ParseError.line self in
  if ParseError.truthy_path path && ParseError.truthy_line line then
    default [] path ++ Str.lit ":" ++ format_d (default 0%Z line) ++ Str.lit ": "
      ++ Exception_str self
  else if ParseError.truthy_path path then
    default [] path ++ Str.lit ": " ++ Exception_str self
  else Exception_str self.

(** ** More of pydsdl/_serializable/_composite.py *)

(** [sep.join(l)] *)
Fixpoint str_join (sep : str) (l : list str) : str :=
  match l with
  | [] => []
  | [w] => w
  | w :: ws => w ++ sep ++ str_join sep ws
  end.

(** [name_components] *)
Definition name_components (self : CompositeType) : list str :=
  Str.split NAME_COMPONENT_SEPARATOR (_name self).

(** [short_name]: [self.name_components[-1]]; [None] is the [IndexError] of
    an empty list. *)
Definition short_name (self : CompositeType) : option str :=
  last (name_components self).

(** [full_namespace]: the components but the last, joined again. *)
Definition full_namespace (self : CompositeType) : str :=
  str_join [NAME_COMPONENT_SEPARATOR] (removelast (name_components self)).

(** [root_namespace]: [self.name_components[0]]; [None] is the [IndexError]
    of an empty list. *)
Definition root_namespace (self : CompositeType) : option str :=
  head (name_components self).

(** [has_fixed_port_id] *)
Definition has_fixed_port_id (self : CompositeType) : bool :=
  match fixed_port_id self with Some _ => true | None => false end.

(** [self._attributes_by_name], the dictionary that [__init__] builds from
    the attribute list and nothing changes afterwards:
    [{a.name: a for a in self._attributes if not isinstance(a, PaddingField)}];
    a later attribute replaces an earlier one under the same name. *)
Definition attributes_by_name_of (attributes : list Attribute) : gmap str Attribute :=
  foldl
    (λ d a, if is_PaddingField a then d else <[ attribute_name a := a ]> d)
    ∅ attributes.

(** [__getitem__]; [None] is the [KeyError] of the dictionary. *)
Definition getitem (self : CompositeType) (attribute_name : str) : option Attribute :=
  attributes_by_name_of (_attributes self) !! attribute_name.

(** Modelled from the spec: [BitLengthSet.is_aligned_at], "is every element
    aligned at N bits". *)
Definition is_aligned_at (r : positive) (s : gset N) : bool :=
  bool_decide (set_Forall (λ x, x mod N.pos r = 0) s).

(** [base_offset or {0}] and [base_offset or 0], the argument of the copy
    that [iterate_fields_with_offsets] starts from: [None] is false, and so is
    an empty set, as every empty Python container is (the method promises
    that "each yielded instance is non-empty"). *)
Definition base_offset_or_zero (base_offset : option (gset N)) : gset N :=
  match base_offset with
  | Some s => if decide (s = ∅) then BitLengthSet.of_int 0 else s
  | None => BitLengthSet.of_int 0
  end.

(** The loop of [StructureType.iterate_fields_with_offsets]: pad the running
    offset in place, yield the field with a copy of it, add the field's set. *)
Fixpoint structure_offsets (base_offset : gset N) (fields : list Attribute)
    : list (Attribute * gset N) :=
  match fields with
  | [] => []
  | f :: rest =>
      let base_offset :=
        BitLengthSet.pad_to_alignment
          (type_alignment_requirement (attribute_data_type f)) base_offset in
      (f, base_offset)
        :: structure_offsets
             (BitLengthSet.add base_offset (type_bit_length_set (attribute_data_type f)))
             rest
  end.

(** [list(self.iterate_fields_with_offsets(base_offset))] for a structure:
    everything the generator yields, or what it raises on the way. *)
Definition StructureType_iterate_fields_with_offsets
    (self : CompositeType) (base_offset : option (gset N))
    : Result (list (Attribute * gset N)) :=
  a ← alignment_requirement self;
  let base_offset :=
    BitLengthSet.pad_to_alignment a (base_offset_or_zero base_offset) in
  Ok (structure_offsets base_offset (fields self)).

(** The loop of [UnionType.iterate_fields_with_offsets]: the assertion, then
    the yield of the field with a copy of the one offset. *)
Fixpoint union_offsets (base_offset : gset N) (fields : list Attribute)
    : Result (list (Attribute * gset N)) :=
  match fields with
  | [] => Ok []
  | f :: rest =>
      py_assert
        (is_aligned_at (type_alignment_requirement (attribute_data_type f))
           base_offset);;
      yielded ← union_offsets base_offset rest;
      Ok ((f, base_offset) :: yielded)
  end.

(** [list(self.iterate_fields_with_offsets(base_offset))] for a union. *)
Definition UnionType_iterate_fields_with_offsets
    (self : UnionType) (base_offset : option (gset N))
    : Result (list (Attribute * gset N)) :=
  a ← alignment_requirement (union_base self);
  let base_offset :=
    BitLengthSet.pad_to_alignment a (base_offset_or_zero base_offset) in
  let base_offset :=
    BitLengthSet.add_int base_offset (bit_length (tag_field_type self)) in
  union_offsets base_offset (fields (union_base self)).

(** [ServiceType.iterate_fields_with_offsets] *)
Definition ServiceType_iterate_fields_with_offsets
    (self : ServiceType) (base_offset : option (gset N))
    : Result (list (Attribute * gset N)) :=
  Raise TypeError.

(** ** Sample values *)

(** An instance of the imports for the examples: a component passes when it
    is not empty; the port identifier bounds are those of the UAVCAN v1
    transport. *)
Definition sample_imports : Imports :=
  {| check_name := Str.truthy; MAX_SUBJECT_ID := 8191; MAX_SERVICE_ID := 511 |}.

Definition uint16 : SerializableType := PrimitiveOrArrayType {[ 16 ]} 1.
Definition int16 : SerializableType := PrimitiveOrArrayType {[ 16 ]} 1.

(** Two 16-bit fields, as in [try_struct_fields] and [try_union_fields]. *)
Definition two_fields : list Attribute :=
  [ Field uint16 (Str.lit "_0"); Field int16 (Str.lit "_1") ].

(** The attributes of the malformed union of the unit test: two fields and a
    padding field. *)
Definition two_fields_and_padding : list Attribute :=
  [ Field uint16 (Str.lit "a"); Field int16 (Str.lit "b"); PaddingField 16 ].

Definition version_0_1 : Version := mkVersion 0 1.

(** The final structure [a.A] of the two fields. *)
Definition sample_structure : CompositeType :=
  {| class := StructureTypeClass;
     _name := Str.lit "a.A";
     _version := version_0_1;
     _attributes := two_fields;
     _final := true;
     _deprecated := false;
     _fixed_port_id := None;
     _source_file_path := [];
     _parent_service := None;
     _extent := 32 |}.

(** The same structure, not final: its extent defaults to twice 32 bits. *)
Definition sample_delimited_structure : CompositeType :=
  {| class := StructureTypeClass;
     _name := Str.lit "a.A";
     _version := version_0_1;
     _attributes := two_fields;
     _final := false;
     _deprecated := false;
     _fixed_port_id := None;
     _source_file_path := [];
     _parent_service := None;
     _extent := 64 |}.

(** The final union [a.A] of the two fields: an 8-bit tag and 16 bits. *)
Definition sample_union : UnionType :=
  {| union_base :=
       {| class := UnionTypeClass;
          _name := Str.lit "a.A";
          _version := version_0_1;
          _attributes := two_fields;
          _final := true;
          _deprecated := false;
          _fixed_port_id := None;
          _source_file_path := [];
          _parent_service := None;
          _extent := 24 |};
     _tag_field_type := mkUnsignedIntegerType 8 TRUNCATED |}.

(** Schema parameters of a final structure of the two fields. *)
Definition sample_params : SchemaParams :=
  SchemaParams_init (Iterable.Sequence two_fields) None false true.

(** A parse error whose path is known and whose line is not. *)
Definition sample_error : ParseError.t :=
  ParseError.__init__ (Str.lit "Hello world!") (Some (Str.lit "a.uavcan")) None.

(** A structure with a constant and a padding field besides two fields. *)
Definition mixed_attributes : list Attribute :=
  [ Field uint16 (Str.lit "a"); PaddingField 8; Field int16 (Str.lit "b");
    Constant uint16 (Str.lit "A") ].

Definition sample_mixed_structure : CompositeType :=
  {| class := StructureTypeClass;
     _name := Str.lit "ns.sub.T";
     _version := version_0_1;
     _attributes := mixed_attributes;
     _final := true;
     _deprecated := false;
     _fixed_port_id := Some 100%Z;
     _source_file_path := [];
     _parent_service := None;
     _extent := 40 |}.

(** ** Vocabulary of the statements *)

Section Vocabulary.
Context `{Imports}.

(** A composite is constructed when [CompositeType.__init__] returned it;
    the constructors of the three concrete classes all run it. *)
Definition constructed (t : CompositeType) : Prop :=
  ∃ cls name version attributes extent final deprecated fixed_port_id
    source_file_path parent_service,
    CompositeType_init cls name version attributes extent final deprecated
      fixed_port_id source_file_path parent_service = Ok t.

(** What [CompositeType.__init__] asserts of its caller: a type is given a
    parent service only under the name of one of the two halves of a
    service, as [ServiceType.__init__] names them. *)
Definition parent_service_precondition (name : str) (parent_service : option Ref)
    : Prop :=
  ∀ ps, parent_service = Some ps →
    Str.endswith (Str.strip name) (Str.lit ".Request")
      || Str.endswith (Str.strip name) (Str.lit ".Response") = true.

(** The largest port identifier that an instance of [cls] may fix. *)
Definition max_port_id (cls : Class) : Z :=
  if is_ServiceType cls then MAX_SERVICE_ID else MAX_SUBJECT_ID.

(** The arguments pass every check that [CompositeType.__init__] makes
    before it looks at the port identifier: the parent service, the name,
    the version and the names of the attributes. *)
Definition passes_checks_before_port_id (name : str) (version : Version)
    (attributes : Iterable.t Attribute) (parent_service : option Ref) : Prop :=
  (∀ ps, parent_service = Some ps →
     Str.endswith (Str.strip name) (Str.lit ".Request")
       || Str.endswith (Str.strip name) (Str.lit ".Response") = true ∧
     is_ServiceType (class_of ps) = true) ∧
  Str.truthy (Str.strip name) = true ∧
  Str.contains NAME_COMPONENT_SEPARATOR (Str.strip name) = true ∧
  (parent_service = None → (length (Str.strip name) <= MAX_NAME_LENGTH)%nat) ∧
  forallb check_name (Str.split NAME_COMPONENT_SEPARATOR (Str.strip name)) = true ∧
  (0 <= major version <= MAX_VERSION_NUMBER ∧
   0 <= minor version <= MAX_VERSION_NUMBER ∧
   0 < major version + minor version)%Z ∧
  check_attribute_names ∅ (Iterable.items attributes) = Ok tt.

End Vocabulary.

(** The pointwise (Minkowski) sum of two sets: every sum of an element of
    the one and an element of the other. *)
Definition pointwise_sum (a b : gset N) : gset N :=
  set_bind (λ x, set_map (C:=gset N) (D:=gset N) (λ y, x + y) b) a.

(** The fold over the fields of a structure, in declaration order and
    starting from [{0}]: pad the running set to the field's alignment
    requirement, then sum it with the field's bit length set. *)
Definition fold_fields (sum : gset N → gset N → gset N)
    (field_types : list SerializableType) : gset N :=
  foldl
    (λ running t,
       sum (BitLengthSet.pad_to_alignment (type_alignment_requirement t) running)
           (type_bit_length_set t))
    {[ 0 ]} field_types.

(** The alignment requirements of the data types of some attributes. *)
Definition alignments (l : list Attribute) : list positive :=
  (λ x, type_alignment_requirement (attribute_data_type x)) <$> l.

(** The largest of [first] and the members of [l]. *)
Definition largest_of (first : positive) (l : list positive) : positive :=
  foldr Pos.max first l.

Definition is_power_of_two (p : N) : Prop := ∃ e, p = 2 ^ e.

(** [p] is [n] rounded up to the next power of two no smaller than [lo]. *)
Definition rounds_up_to_power_of_two (lo n p : N) : Prop :=
  is_power_of_two p ∧ lo ≤ p ∧ n ≤ p ∧
  ∀ q, is_power_of_two q → lo ≤ q → n ≤ q → p ≤ q.

(** [b] is the bit length of [n]: the least number of bits that write [n]. *)
Definition is_bit_length (n b : N) : Prop :=
  n < 2 ^ b ∧ ∀ b', n < 2 ^ b' → b ≤ b'.

(** A string carries no surrounding whitespace: neither its first nor its
    last character is a space. *)
Definition no_surrounding_whitespace (s : str) : Prop :=
  (∀ c, head s = Some c → Str.isspace c = false) ∧
  (∀ c, last s = Some c → Str.isspace c = false).

(** A string consists only of whitespace. *)
Definition only_whitespace (s : str) : Prop :=
  Forall (λ c, Str.isspace c = true) s.

(** An attribute that [__getitem__] can find under the name [k]. *)
Definition named (k : str) (a : Attribute) : Prop :=
  is_PaddingField a = false ∧ attribute_name a = k.

#[export] Instance named_dec k a : Decision (named k a).
Proof. unfold named. apply _. Defined.

(** * Properties *)

(** ** Results *)

Lemma bind_Ok_inv {A B} (m : Result A) (f : A → Result B) (b : B) :
  m ≫= f = Ok b → ∃ a, m = Ok a ∧ f a = Ok b.
Proof. destruct m as [a|e]; [eauto | discriminate]. Qed.

Lemma raise_if_Ok_inv c e u : raise_if c e = Ok u → c = false.
Proof. by destruct c. Qed.

Lemma py_assert_Ok_inv c u : py_assert c = Ok u → c = true.
Proof. by destruct c. Qed.

Lemma raise_if_false e : raise_if false e = Ok tt.
Proof. done. Qed.

Lemma py_assert_true : py_assert true = Ok tt.
Proof. done. Qed.

(** Splits a successful sequence of calls into its successful steps. *)
Ltac inv_Ok H :=
  repeat
    (let a := fresh "v" in
     let Ha := fresh "Hstep" in
     apply bind_Ok_inv in H as (a & Ha & H);
     try (apply raise_if_Ok_inv in Ha);
     try (apply py_assert_Ok_inv in Ha)).

(** ** Parse errors *)

Section ParseErrorFacts.
Import ParseError.

Lemma set_location_text e p l :
  text (set_error_location_if_unknown e p l) = text e.
Proof.
  unfold set_error_location_if_unknown.
  repeat (case_match; simpl); reflexivity.
Qed.

(** C9. [set_error_location_if_unknown] only fills in what is unset. A path
    that is already a non-empty string and a line that is already non-zero
    are kept, whatever the arguments. A component changes only when it was
    unset (absent, or empty / zero) and the argument is set, and then it
    becomes the argument; an unset argument changes nothing. *)
Theorem set_error_location_if_unknown_frame (e : t) (p : option str) (l : option Z) :
  let e' := set_error_location_if_unknown e p l in
  (∀ s, _path e = Some s → s ≠ [] → path e' = _path e) ∧
  (∀ n, _line e = Some n → n ≠ 0%Z → line e' = _line e) ∧
  (path e' ≠ _path e →
     truthy_path (_path e) = false ∧ truthy_path p = true ∧ path e' = p) ∧
  (line e' ≠ _line e →
     truthy_line (_line e) = false ∧ truthy_line l = true ∧ line e' = l) ∧
  (truthy_path (_path e) = false → truthy_path p = true → path e' = p) ∧
  (truthy_line (_line e) = false → truthy_line l = true → line e' = l) ∧
  (truthy_path p = false → path e' = _path e) ∧
  (truthy_line l = false → line e' = _line e).
Proof.
  destruct e as [tx pa li].
  unfold set_error_location_if_unknown, path, line, truthy_path, truthy_line.
  cbn [_path _line text].
  destruct pa as [[|c s]|], p as [[|c' s']|]; cbn [Str.truthy negb andb _path _line];
    destruct li as [n|], l as [n'|]; cbn [negb andb _path _line];
    try destruct (Z.eqb_spec n 0); try destruct (Z.eqb_spec n' 0);
    cbn [negb andb _path _line]; intuition congruence.
Qed.

End ParseErrorFacts.

(** ** The bit length set algebra *)

Section BitLengthSetFacts.
Import BitLengthSet.

Lemma elem_of_pad_to_alignment r (s : gset N) y :
  y ∈ pad_to_alignment r s ↔ ∃ x, y = pad_length r x ∧ x ∈ s.
Proof. unfold pad_to_alignment. by rewrite elem_of_map. Qed.

Lemma elem_of_or_zero (s : gset N) x :
  x ∈ or_zero s ↔ (x ∈ s ∨ (s = ∅ ∧ x = 0)).
Proof. unfold or_zero. case_decide; set_solver. Qed.

Lemma or_zero_nonempty (s : gset N) : s ≠ ∅ → or_zero s = s.
Proof. unfold or_zero. by case_decide. Qed.

Lemma or_zero_empty : or_zero ∅ = {[ 0 ]}.
Proof. unfold or_zero. by case_decide. Qed.

Lemma elem_of_add (a b : gset N) z :
  z ∈ add a b ↔ ∃ x y, x ∈ or_zero a ∧ y ∈ b ∧ z = x + y.
Proof.
  unfold add. rewrite elem_of_set_bind. split.
  - intros (x & Hx & Hz). apply elem_of_map in Hz as (y & -> & Hy). eauto.
  - intros (x & y & Hx & Hy & ->). exists x. split; [done|].
    apply elem_of_map. eauto.
Qed.

Lemma elem_of_of_range (n : Z) x :
  x ∈ of_range n ↔ (Z.of_N x < n)%Z.
Proof.
  unfold of_range. rewrite elem_of_list_to_set, list_elem_of_fmap. split.
  - intros (k & -> & Hk). apply elem_of_seq in Hk. lia.
  - intros Hx. exists (N.to_nat x). split; [lia|]. apply elem_of_seq. lia.
Qed.

(** Padding gives the least multiple of the alignment that is not below the
    length. *)
Lemma pad_length_spec r x :
  (N.pos r | pad_length r x) ∧ x ≤ pad_length r x ∧ pad_length r x < x + N.pos r ∧
  ∀ y, (N.pos r | y) → x ≤ y → pad_length r x ≤ y.
Proof.
  unfold pad_length. set (a := N.pos r). assert (0 < a) by (unfold a; lia).
  pose proof (N.div_mod (x + (a - 1)) a ltac:(lia)) as Hdm.
  pose proof (N.mod_lt (x + (a - 1)) a ltac:(lia)) as Hlt.
  rewrite (N.mul_comm a) in Hdm.
  set (q := (x + (a - 1)) / a) in *. set (m := (x + (a - 1)) mod a) in *.
  repeat split.
  - by exists q.
  - lia.
  - lia.
  - intros y [k ->] Hle.
    apply N.mul_le_mono_r.
    destruct (N.le_gt_cases q k) as [|Hgt]; [done|].
    assert (k + 1 <= q) as Hk by lia.
    apply (N.mul_le_mono_r _ _ a) in Hk. lia.
Qed.

Lemma pad_length_aligned r x : (N.pos r | x) → pad_length r x = x.
Proof.
  intros Hx. destruct (pad_length_spec r x) as (_ & Hle & _ & Hmin).
  specialize (Hmin x Hx ltac:(lia)). lia.
Qed.

Lemma pad_length_0 r : pad_length r 0 = 0.
Proof. apply pad_length_aligned. exists 0. lia. Qed.

Lemma pad_to_alignment_empty r : pad_to_alignment r ∅ = ∅.
Proof. apply set_eq. intros y. rewrite elem_of_pad_to_alignment. set_solver. Qed.

Lemma pad_to_alignment_zero r : pad_to_alignment r {[ 0 ]} = {[ 0 ]}.
Proof.
  apply set_eq. intros y. rewrite elem_of_pad_to_alignment. split.
  - intros (x & -> & Hx). apply elem_of_singleton in Hx as ->.
    rewrite pad_length_0. set_solver.
  - intros Hy. apply elem_of_singleton in Hy as ->. exists 0.
    rewrite pad_length_0. set_solver.
Qed.

Lemma pad_to_alignment_nonempty r (s : gset N) :
  s ≠ ∅ → pad_to_alignment r s ≠ ∅.
Proof.
  intros Hs. apply set_choose_L in Hs as [x Hx].
  intros He. assert (pad_length r x ∈ pad_to_alignment r s) as Hin
    by (apply elem_of_pad_to_alignment; eauto).
  rewrite He in Hin. set_solver.
Qed.

(** [max] returns the greatest element. *)
Lemma max_spec (s : gset N) m :
  max s = Ok m ↔ (m ∈ s ∧ ∀ x, x ∈ s → x ≤ m).
Proof.
  unfold max. case_decide as Hs.
  - subst. split; [discriminate | set_solver].
  - assert (∀ l : list N, l ≠ [] →
      foldr N.max 0 l ∈ l ∧ ∀ x, x ∈ l → x ≤ foldr N.max 0 l) as Hl.
    { induction l as [|x l IH]; [done|]. intros _. simpl.
      destruct l as [|x' l'].
      - simpl. rewrite N.max_0_r. split; [set_solver|].
        intros y Hy. apply list_elem_of_singleton in Hy. lia.
      - destruct (IH ltac:(done)) as [IH1 IH2]. split.
        + destruct (N.max_spec x (foldr N.max 0 (x' :: l'))) as [[_ ->]|[_ ->]];
            [by right | by left].
        + intros y Hy. apply elem_of_cons in Hy as [->|Hy]; [lia|].
          specialize (IH2 y Hy). lia. }
    assert (elements s ≠ []) as Hne.
    { intros He. apply elements_empty_inv in He. apply Hs. by apply leibniz_equiv. }
    destruct (Hl _ Hne) as [H1 H2]. split.
    + intros [= <-]. split; [by apply elem_of_elements|].
      intros x Hx. apply H2. by apply elem_of_elements.
    + intros [Hm Hub]. f_equal. apply N.le_antisymm.
      * apply Hub. by apply elem_of_elements.
      * apply H2. by apply elem_of_elements.
Qed.

Lemma max_Ok_nonempty (s : gset N) m : max s = Ok m → s ≠ ∅.
Proof. unfold max. by case_decide. Qed.

End BitLengthSetFacts.

(** ** Construction of composite types *)

Section ConstructionFacts.
Context `{Imports}.

(** What a successful run of [CompositeType.__init__] has established. *)
Lemma CompositeType_init_inv cls name ver attrs ext fin dep port path par t :
  CompositeType_init cls name ver attrs ext fin dep port path par = Ok t →
  ∃ agg a m,
    aggregate_bit_length_sets_of cls (Iterable.items attrs) = Ok agg ∧
    alignment_requirement_of (Iterable.items attrs) = Ok a ∧
    BitLengthSet.max (BitLengthSet.pad_to_alignment a agg) = Ok m ∧
    t = mkCompositeType cls (Str.strip name) ver (Iterable.items attrs) fin dep
          port path par (_extent t) ∧
    (8 <= a)%positive ∧ N.pos a mod 8 = 0 ∧
    (_extent t mod Z.pos a = 0)%Z ∧
    (Z.of_N m <= _extent t)%Z ∧
    (fin = true → _extent t = Z.of_N m) ∧
    (∀ e, ext = Some e → _extent t = e) ∧
    (ext = None → fin = false →
       ∃ largest padded,
         BitLengthSet.max agg = Ok largest ∧
         BitLengthSet.max (BitLengthSet.pad_to_alignment a
                             (BitLengthSet.of_int (largest * 2))) = Ok padded ∧
         _extent t = Z.of_N padded) ∧
    Str.truthy (Str.strip name) = true.
Proof.
  unfold CompositeType_init. intros Hinit.
  inv_Ok Hinit.
  injection Hinit as <-. cbn [_extent].
  match goal with
  | Ha : aggregate_bit_length_sets_of _ _ = Ok ?agg,
    Hb : alignment_requirement_of _ = Ok ?a,
    Hc : BitLengthSet.max _ = Ok ?m |- _ =>
      exists agg, a, m
  end.
  repeat match goal with
  | Hb : negb _ = false |- _ => apply negb_false_iff in Hb
  | Hb : (_ =? _)%Z = true |- _ => apply Z.eqb_eq in Hb
  | Hb : (_ <? _)%Z = false |- _ => apply Z.ltb_ge in Hb
  | Hb : (_ =? _) = true |- _ => apply N.eqb_eq in Hb
  | Hb : (_ <=? _)%positive = true |- _ => apply Pos.leb_le in Hb
  end.
  split_and!; try done.
  - intros ->. simpl in *. lia.
  - intros e ->. by simplify_eq.
  - intros -> ->. 
    match goal with Hx : (_ ≫= _) = Ok _ |- _ => rename Hx into Hext end.
    inv_Ok Hext. injection Hext as <-.
    match goal with
    | Ha : aggregate_bit_length_sets_of _ _ = Ok ?agg,
      Ha' : aggregate_bit_length_sets_of _ _ = Ok ?agg' |- _ =>
        rewrite Ha in Ha'; injection Ha' as <-
    end.
    eauto.
Qed.

End ConstructionFacts.

(** ** Extent and alignment *)

Section ExtentFacts.
Context `{Imports}.

Lemma constructed_inv t :
  constructed t →
  ∃ agg a m,
    _aggregate_bit_length_sets t = Ok agg ∧
    alignment_requirement t = Ok a ∧
    BitLengthSet.max (BitLengthSet.pad_to_alignment a agg) = Ok m ∧
    (8 <= a)%positive ∧ N.pos a mod 8 = 0 ∧
    (extent t mod Z.pos a = 0)%Z ∧
    (Z.of_N m <= extent t)%Z ∧
    (final t = true → extent t = Z.of_N m).
Proof.
  intros (cls & name & ver & attrs & ext & fin & dep & port & path & par & Hinit).
  apply CompositeType_init_inv in Hinit
    as (agg & a & m & Hagg & Ha & Hm & Ht & Hge & Hmod & Hext & Hmin & Hfin & _).
  exists agg, a, m.
  unfold _aggregate_bit_length_sets, alignment_requirement, attributes, extent, final.
  rewrite Ht. cbn [class _attributes _extent _final]. done.
Qed.

(** C7. The extent of a constructed composite type is an exact multiple of
    its alignment requirement, and the alignment requirement is a positive
    multiple of 8. *)
Theorem extent_multiple_of_alignment (t : CompositeType) :
  constructed t →
  ∃ a : positive,
    alignment_requirement t = Ok a ∧
    (Z.pos a | extent t)%Z ∧
    ∃ k : positive, a = (8 * k)%positive.
Proof.
  intros Ht. apply constructed_inv in Ht
    as (agg & a & m & _ & Ha & _ & Hge & Hmod & Hext & _).
  exists a. split_and!; [done| |].
  - apply Z.mod_divide; [lia|done].
  - apply N.Div0.mod_divides in Hmod as [k Hk].
    destruct k as [|k]; [lia|]. exists k. lia.
Qed.

(** C3. The extent of a constructed final composite type is the maximum of
    its aggregate bit length set padded to its alignment requirement; and
    when [CompositeType.__init__] constructs a final type without an
    explicit extent, the same construction with an explicit extent that
    differs from that value raises [InvalidExtentError], whatever the class:
    for a structure, and for a union before its own checks run. *)
Theorem final_extent_exact :
  (∀ t, constructed t → final t = true →
     ∃ agg a m,
       _aggregate_bit_length_sets t = Ok agg ∧
       alignment_requirement t = Ok a ∧
       BitLengthSet.max (BitLengthSet.pad_to_alignment a agg) = Ok m ∧
       extent t = Z.of_N m) ∧
  (∀ cls name ver attrs dep port path par t e,
     CompositeType_init cls name ver attrs None true dep port path par = Ok t →
     e ≠ extent t →
     CompositeType_init cls name ver attrs (Some e) true dep port path par
       = Raise InvalidExtentError) ∧
  (∀ name ver attrs dep port path par t e,
     StructureType_init name ver attrs None true dep port path par = Ok t →
     e ≠ extent t →
     StructureType_init name ver attrs (Some e) true dep port path par
       = Raise InvalidExtentError) ∧
  (∀ name ver attrs dep port path par t e,
     CompositeType_init UnionTypeClass name ver attrs None true dep port path par
       = Ok t →
     e ≠ extent t →
     UnionType_init name ver attrs (Some e) true dep port path par
       = Raise InvalidExtentError).
Proof.
  assert (∀ cls name ver attrs dep port path par t e,
     CompositeType_init cls name ver attrs None true dep port path par = Ok t →
     e ≠ extent t →
     CompositeType_init cls name ver attrs (Some e) true dep port path par
       = Raise InvalidExtentError) as Hbase.
  { intros cls name ver attrs dep port path par t e Hinit Hne.
    unfold CompositeType_init in Hinit |- *.
    inv_Ok Hinit. injection Hinit as <-.
    unfold extent in Hne. cbn [_extent] in Hne.
    repeat match goal with
    | Hs : ?c = Ok _ |- context [?c] => rewrite Hs; cbn [mbind Result_bind raise_if]
    | Hs : ?c = false |- context [raise_if ?c] => rewrite Hs; cbn [mbind Result_bind raise_if]
    | Hs : ?c = true |- context [py_assert ?c] => rewrite Hs; cbn [mbind Result_bind py_assert]
    | Hs : Ok _ = Ok _ |- _ => injection Hs as <-
    end.
    repeat match goal with
    | |- context [raise_if ?c _] =>
        let Hc := fresh "Hc" in
        destruct c eqn:Hc; cbn [mbind Result_bind raise_if]; [done|]
    end.
    exfalso. apply Hne.
    repeat match goal with
    | Hb : negb _ = false |- _ => apply negb_false_iff in Hb
    | Hb : andb true _ = false |- _ => cbn [andb] in Hb
    | Hb : (_ <? _)%Z = false |- _ => apply Z.ltb_ge in Hb
    end.
    lia. }
  split_and!.
  - intros t Ht Hfin. apply constructed_inv in Ht
      as (agg & a & m & Hagg & Ha & Hm & _ & _ & _ & _ & Hext).
    exists agg, a, m. auto.
  - exact Hbase.
  - intros *. apply Hbase.
  - intros name ver attrs dep port path par t e Hinit Hne.
    unfold UnionType_init.
    by rewrite (Hbase _ _ _ _ _ _ _ _ _ _ Hinit Hne).
Qed.

End ExtentFacts.

(** ** Alignment requirement *)

Section AlignmentFacts.
Context `{Imports}.

Lemma foldr_max_init (a x : positive) (l : list positive) :
  foldr Pos.max (Pos.max a x) l = Pos.max x (foldr Pos.max a l).
Proof. induction l as [|y l IH]; simpl; [lia | rewrite IH; lia]. Qed.

Lemma foldl_max_foldr (a : positive) (l : list positive) :
  foldl Pos.max a l = foldr Pos.max a l.
Proof.
  revert a. induction l as [|x l IH]; intros a; simpl; [done|].
  by rewrite IH, foldr_max_init.
Qed.

(** [largest_of] is the largest. *)
Lemma largest_of_spec (first : positive) (l : list positive) :
  (first <= largest_of first l)%positive ∧
  Forall (λ x, (x <= largest_of first l)%positive) l ∧
  (largest_of first l = first ∨ largest_of first l ∈ l).
Proof.
  unfold largest_of. induction l as [|x l (IH1 & IH2 & IH3)]; simpl.
  - split_and!; [lia | constructor | by left].
  - split_and!.
    + lia.
    + constructor; [lia|]. eapply Forall_impl; [exact IH2|]. simpl. lia.
    + destruct (Pos.max_spec x (foldr Pos.max first l)) as [[_ ->]|[_ ->]].
      * destruct IH3 as [?|?]; [by left | right; by right].
      * right. by left.
Qed.

(** A padding field never raises the maximum: a void type has alignment 1. *)
Lemma largest_of_fields_except_padding (attrs : list Attribute) :
  largest_of BITS_PER_BYTE (alignments (fields_of attrs)) =
  largest_of BITS_PER_BYTE (alignments (fields_except_padding_of attrs)).
Proof.
  induction attrs as [|x attrs IH]; [done|].
  pose proof (largest_of_spec BITS_PER_BYTE
                (alignments (fields_except_padding_of attrs))) as [Hge _].
  unfold fields_of, fields_except_padding_of, alignments, largest_of in *.
  destruct x as [t n|n|t n];
    cbn [List.filter is_Field is_PaddingField andb negb];
    rewrite ?fmap_cons; cbn [foldr attribute_data_type type_alignment_requirement].
  - by rewrite IH.
  - rewrite IH. unfold BITS_PER_BYTE in *. lia.
  - done.
Qed.

Lemma alignment_requirement_of_Ok attrs a :
  alignment_requirement_of attrs = Ok a →
  fields_of attrs ≠ [] ∧ a = largest_of BITS_PER_BYTE (alignments (fields_of attrs)).
Proof.
  unfold alignment_requirement_of, py_max_args, largest_of, alignments.
  destruct (fields_of attrs) as [|f fs]; [discriminate|].
  rewrite fmap_cons. intros Heq. injection Heq as <-.
  split; [done|]. by rewrite foldl_max_foldr, foldr_max_init.
Qed.

(** C4. The alignment requirement of a constructed composite type is the
    largest of 8 bits and the alignment requirements of the data types of
    its fields other than padding fields: it is at least 8 and at least each
    of those, and it is 8 or one of those. Padding fields and constants do
    not contribute. *)
Theorem alignment_requirement_largest (t : CompositeType) :
  constructed t →
  ∃ a : positive,
    alignment_requirement t = Ok a ∧
    a = largest_of 8 (alignments (fields_except_padding t)) ∧
    (8 <= a)%positive ∧
    Forall (λ x, (x <= a)%positive) (alignments (fields_except_padding t)) ∧
    (a = 8%positive ∨ a ∈ alignments (fields_except_padding t)).
Proof.
  intros Ht. apply constructed_inv in Ht as (_ & a & _ & _ & Ha & _).
  exists a. split; [done|].
  unfold alignment_requirement in Ha.
  apply alignment_requirement_of_Ok in Ha as [_ ->].
  rewrite largest_of_fields_except_padding.
  unfold fields_except_padding.
  split; [done|]. apply (largest_of_spec 8).
Qed.

End AlignmentFacts.

(** ** Bit length sets of composite types *)

Section BitLengthSetOfComposite.
Context `{Imports}.
Import BitLengthSet.

Lemma elem_of_pointwise_sum (a b : gset N) z :
  z ∈ pointwise_sum a b ↔ ∃ x y, x ∈ a ∧ y ∈ b ∧ z = x + y.
Proof.
  unfold pointwise_sum. rewrite elem_of_set_bind. split.
  - intros (x & Hx & Hz). apply elem_of_map in Hz as (y & -> & Hy). eauto.
  - intros (x & y & Hx & Hy & ->). exists x. split; [done|].
    apply elem_of_map. eauto.
Qed.

Lemma add_pointwise_sum (a b : gset N) :
  add a b = pointwise_sum (or_zero a) b.
Proof. done. Qed.

Lemma pointwise_sum_nonempty (a b : gset N) :
  a ≠ ∅ → b ≠ ∅ → pointwise_sum a b ≠ ∅.
Proof.
  intros [x Hx]%set_choose_L [y Hy]%set_choose_L He.
  assert (x + y ∈ pointwise_sum a b) as Hin
    by (apply elem_of_pointwise_sum; eauto).
  rewrite He in Hin. set_solver.
Qed.

(** The first step of the loop of a structure reads the empty running set
    as [{0}]. *)
Lemma first_step_from_empty r (s : gset N) :
  add (pad_to_alignment r empty) s = add (pad_to_alignment r {[ 0 ]}) s.
Proof.
  unfold empty. rewrite pad_to_alignment_empty, pad_to_alignment_zero.
  rewrite !add_pointwise_sum, or_zero_empty.
  by rewrite (or_zero_nonempty {[ 0 ]}) by set_solver.
Qed.

Lemma StructureType_aggregate_fold (field_types : list SerializableType) :
  field_types ≠ [] →
  StructureType_aggregate_bit_length_sets field_types = fold_fields add field_types.
Proof.
  unfold StructureType_aggregate_bit_length_sets, fold_fields.
  destruct field_types as [|t l]; [done|]. intros _.
  cbn [foldl]. by rewrite first_step_from_empty.
Qed.

Lemma fold_fields_pointwise (field_types : list SerializableType) :
  Forall (λ ft, type_bit_length_set ft ≠ ∅) field_types →
  fold_fields add field_types = fold_fields pointwise_sum field_types.
Proof.
  unfold fold_fields.
  assert ({[ 0 ]} ≠ (∅ : gset N)) as Hne by set_solver.
  revert Hne. generalize ({[ 0 ]} : gset N) as running.
  induction field_types as [|t l IH]; intros running Hne Hall; [done|].
  apply Forall_cons in Hall as [Ht Hl]. cbn [foldl].
  rewrite add_pointwise_sum.
  rewrite !or_zero_nonempty by (done || by apply pad_to_alignment_nonempty).
  apply IH; [|done].
  apply pointwise_sum_nonempty; [by apply pad_to_alignment_nonempty | done].
Qed.

(** C2. The bit length set of a final structure is the fold over its fields
    in declaration order, from [{0}], that pads the running set to the
    alignment requirement of the field and then sums it with the bit length
    set of the field, padded at the end to the alignment requirement of the
    structure. The sum is the one of the bit length set algebra; it is the
    plain pointwise sum when no field has an empty bit length set. *)
Theorem final_structure_bit_length_set (t : CompositeType) :
  constructed t → class t = StructureTypeClass → final t = true →
  ∃ a : positive,
    alignment_requirement t = Ok a ∧
    bit_length_set t =
      Ok (pad_to_alignment a
            (fold_fields add (attribute_data_type <$> fields t))) ∧
    (Forall (λ ft, type_bit_length_set ft ≠ ∅) (attribute_data_type <$> fields t) →
     bit_length_set t =
       Ok (pad_to_alignment a
             (fold_fields pointwise_sum (attribute_data_type <$> fields t)))).
Proof.
  intros Ht Hcls Hfin. apply constructed_inv in Ht as (agg & a & m & Hagg & Ha & _).
  exists a. split; [done|].
  assert (bit_length_set t =
            Ok (pad_to_alignment a
                  (fold_fields add (attribute_data_type <$> fields t)))) as Hbls.
  { unfold bit_length_set. rewrite Hfin.
    unfold _aggregate_bit_length_sets, aggregate_bit_length_sets_of in *.
    rewrite Hcls in *. cbn [mbind Result_bind]. rewrite Ha. cbn [mbind Result_bind].
    unfold alignment_requirement in Ha.
    apply alignment_requirement_of_Ok in Ha as [Hne _].
    rewrite StructureType_aggregate_fold; [done|].
    unfold fields. destruct (fields_of (attributes t)); done. }
  split; [done|].
  intros Hall. by rewrite Hbls, fold_fields_pointwise.
Qed.

(** C6. The bit length set of a constructed composite type that is not
    final holds exactly the lengths [x] from 0 to the extent inclusive, each
    padded to the alignment requirement and increased by the width of the
    delimiter header, which is the larger of 32 and the alignment
    requirement. *)
Theorem non_final_bit_length_set (t : CompositeType) :
  constructed t → final t = false →
  ∃ (a : positive) (u : UnsignedIntegerType) (s : gset N),
    alignment_requirement t = Ok a ∧
    delimiter_header_type t = Ok (Some u) ∧
    bit_length u = N.max 32 (N.pos a) ∧
    bit_length_set t = Ok s ∧
    ∀ y, y ∈ s ↔
      ∃ x, (0 <= Z.of_N x <= extent t)%Z ∧ y = pad_length a x + bit_length u.
Proof.
  intros Ht Hfin.
  apply constructed_inv in Ht as (agg & a & m & _ & Ha & _ & _ & _ & _ & Hext & _).
  unfold bit_length_set, delimiter_header_type. rewrite Hfin, Ha.
  cbn [negb mbind Result_bind bit_length].
  eexists a, _, _. split_and!; try done.
  intros y. unfold add_int. rewrite elem_of_add.
  assert (pad_to_alignment a (of_range (extent t + 1)) ≠ ∅) as Hne.
  { apply pad_to_alignment_nonempty.
    assert (0 ∈ of_range (extent t + 1)) by (apply elem_of_of_range; lia).
    set_solver. }
  rewrite (or_zero_nonempty _ Hne).
  unfold of_int.
  split.
  - intros (x & h & Hx & Hh & ->).
    apply elem_of_pad_to_alignment in Hx as (x0 & -> & Hx0).
    apply elem_of_of_range in Hx0. apply elem_of_singleton in Hh as ->.
    exists x0. split; [lia|done].
  - intros (x & Hx & ->). eexists _, _. split_and!; [|by apply elem_of_singleton|done].
    apply elem_of_pad_to_alignment. exists x. split; [done|].
    apply elem_of_of_range. lia.
Qed.

(** Reading the bit length set and the alignment requirement of a
    constructed composite never raises. *)
Lemma as_data_type_constructed (t : CompositeType) :
  constructed t → ∃ d, as_data_type t = Ok d.
Proof.
  intros Ht. unfold as_data_type.
  apply constructed_inv in Ht as (agg & a & m & Hagg & Ha & _).
  unfold bit_length_set, delimiter_header_type.
  destruct (final t); rewrite ?Hagg, Ha; cbn [negb mbind Result_bind]; eauto.
Qed.

End BitLengthSetOfComposite.

(** ** The tag of a union *)

Section TagFacts.
Context `{Imports}.

(** [N.size] is the bit length. *)
Lemma size_is_bit_length (n : N) : is_bit_length n (N.size n).
Proof.
  unfold is_bit_length. destruct (N.eq_dec n 0) as [->|Hn].
  - split; [done|]. intros b' _. simpl. lia.
  - rewrite N.size_log2 by done. split.
    + apply N.log2_spec. lia.
    + intros b' Hb'. apply N.le_succ_l. apply N.log2_lt_pow2; [lia|done].
Qed.

(** The code's [2 ** ceil(log2(max(8, n)))] rounds [n] up to the next power
    of two no smaller than 8. *)
Lemma tag_rounding (n : N) :
  rounds_up_to_power_of_two 8 n (2 ^ N.log2_up (N.max 8 n)).
Proof.
  unfold rounds_up_to_power_of_two, is_power_of_two.
  assert (N.max 8 n <= 2 ^ N.log2_up (N.max 8 n)) as Hup
    by (apply N.log2_up_spec; lia).
  split_and!; [eauto | lia | lia |].
  intros q [e ->] H8 Hn.
  apply N.pow_le_mono_r; [done|].
  apply N.log2_up_le_pow2; lia.
Qed.

Lemma foldl_N_max_spec (p : N) (l : list N) :
  p <= foldl N.max p l ∧ Forall (λ x, x <= foldl N.max p l) l ∧
  (foldl N.max p l = p ∨ foldl N.max p l ∈ l).
Proof.
  revert p. induction l as [|x l IH]; intros p; cbn [foldl].
  - split_and!; [lia | constructor | by left].
  - destruct (IH (N.max p x)) as (IH1 & IH2 & IH3). split_and!.
    + lia.
    + constructor; [lia | done].
    + destruct IH3 as [->|Hin]; [|right; by right].
      destruct (N.max_spec p x) as [[_ ->]|[_ ->]]; [right; by left | by left].
Qed.

Lemma elem_of_tag_widths (w : N) :
  w ∈ [8; 16; 32; 64] ↔ w = 8 ∨ w = 16 ∨ w = 32 ∨ w = 64.
Proof. rewrite !elem_of_cons, elem_of_nil. tauto. Qed.

Lemma compute_tag_bit_length_inv (field_types : list SerializableType) (w : N) :
  UnionType_compute_tag_bit_length field_types = Ok w →
  (2 <= length field_types)%nat ∧
  w = foldl N.max
        (2 ^ N.log2_up (N.max 8 (N.size (N.of_nat (length field_types) - 1))))
        ((λ x, N.pos (type_alignment_requirement x)) <$> field_types) ∧
  w ∈ [8; 16; 32; 64].
Proof.
  unfold UnionType_compute_tag_bit_length.
  destruct (Nat.ltb_spec 1 (length field_types)) as [Hk|Hk]; [|discriminate].
  cbn [py_max_list mbind Result_bind]. intros Hw.
  apply bind_Ok_inv in Hw as (? & Ha%py_assert_Ok_inv & [= <-]).
  apply bool_decide_eq_true in Ha. split_and!; [lia | done | done].
Qed.

(** C5. When the tag width of a union is computed, there are [k >= 2]
    variants, and the width is the bit length of [k - 1], rounded up to the
    next power of two no smaller than 8, then raised to the largest alignment
    requirement among the variants when that is larger; it is one of 8, 16,
    32 and 64. The tag of a constructed union has this width. The
    computation returns whenever there are between 2 and 2^64 variants and
    each alignment requirement is at most 8 or one of 16, 32 and 64. *)
Theorem union_tag_bit_length :
  (∀ field_types w,
     UnionType_compute_tag_bit_length field_types = Ok w →
     let k := N.of_nat (length field_types) in
     2 <= k ∧
     ∃ b p,
       is_bit_length (k - 1) b ∧
       rounds_up_to_power_of_two 8 b p ∧
       p <= w ∧
       Forall (λ t, N.pos (type_alignment_requirement t) <= w) field_types ∧
       (w = p ∨ ∃ t, t ∈ field_types ∧ w = N.pos (type_alignment_requirement t)) ∧
       w ∈ [8; 16; 32; 64]) ∧
  (∀ name ver attrs ext fin dep port path par u,
     UnionType_init name ver attrs ext fin dep port path par = Ok u →
     (2 <= number_of_variants (union_base u))%nat ∧
     UnionType_compute_tag_bit_length
       (attribute_data_type <$> fields (union_base u))
       = Ok (bit_length (tag_field_type u)) ∧
     bit_length (tag_field_type u) ∈ [8; 16; 32; 64]) ∧
  (∀ field_types,
     (2 <= length field_types)%nat →
     N.of_nat (length field_types) <= 2 ^ 64 →
     Forall (λ t, N.pos (type_alignment_requirement t) <= 8 ∨
                  N.pos (type_alignment_requirement t) ∈ [16; 32; 64]) field_types →
     ∃ w, UnionType_compute_tag_bit_length field_types = Ok w).
Proof.
  split_and!.
  - intros field_types w Hw k.
    apply compute_tag_bit_length_inv in Hw as (Hk & Hw & Hin).
    split; [lia|].
    exists (N.size (k - 1)), (2 ^ N.log2_up (N.max 8 (N.size (k - 1)))).
    destruct (foldl_N_max_spec
                (2 ^ N.log2_up (N.max 8 (N.size (k - 1))))
                ((λ x, N.pos (type_alignment_requirement x)) <$> field_types))
      as (H1 & H2 & H3).
    fold k in Hw. rewrite <- Hw in H1, H2, H3.
    split_and!; [apply size_is_bit_length | apply tag_rounding | done | | | done].
    + rewrite Forall_fmap in H2. exact H2.
    + destruct H3 as [?|Hin']; [by left | right].
      apply list_elem_of_fmap in Hin' as (t & -> & Ht). eauto.
  - intros name ver attrs ext fin dep port path par u Hinit.
    unfold UnionType_init in Hinit.
    apply bind_Ok_inv in Hinit as (t & _ & Hinit).
    inv_Ok Hinit. injection Hinit as <-. cbn [union_base tag_field_type _tag_field_type bit_length].
    match goal with
    | Hc : UnionType_compute_tag_bit_length _ = Ok _ |- _ =>
        pose proof (compute_tag_bit_length_inv _ _ Hc) as (Hlen & _ & Hin);
        rewrite length_fmap in Hlen
    end.
    done.
  - intros field_types Hk Hmax Hall.
    unfold UnionType_compute_tag_bit_length.
    destruct (Nat.ltb_spec 1 (length field_types)) as [_|?]; [|lia].
    cbn [py_max_list mbind Result_bind].
    set (k := N.of_nat (length field_types)) in *.
    set (p := 2 ^ N.log2_up (N.max 8 (N.size (k - 1)))).
    assert (p ∈ [8; 16; 32; 64]) as Hp.
    { assert (N.size (k - 1) <= 64) as Hsize.
      { apply (proj2 (size_is_bit_length (k - 1))). lia. }
      assert (3 <= N.log2_up (N.max 8 (N.size (k - 1))) <= 6) as [Hlo Hhi].
      { split.
        - change 3 with (N.log2_up 8). apply N.log2_up_le_mono. lia.
        - apply N.log2_up_le_pow2; [lia|]. change (2 ^ 6) with 64. lia. }
      unfold p.
      assert (∀ e, 3 <= e <= 6 → e = 3 ∨ e = 4 ∨ e = 5 ∨ e = 6) as Hcase by lia.
      destruct (Hcase _ (conj Hlo Hhi)) as [-> | [-> | [-> | ->]]];
        apply elem_of_tag_widths; vm_compute; tauto. }
    assert (foldl N.max p
              ((λ x, N.pos (type_alignment_requirement x)) <$> field_types)
            ∈ [8; 16; 32; 64]) as Hw.
    { clearbody p. clear Hk Hmax k. revert p Hp.
      induction field_types as [|t l IH]; intros p Hp; [done|].
      apply Forall_cons in Hall as [Ht Hl]. rewrite fmap_cons. cbn [foldl].
      apply IH; [done|].
      set (a := N.pos (type_alignment_requirement t)) in *.
      apply elem_of_tag_widths in Hp.
      rewrite !elem_of_cons, elem_of_nil in Ht.
      apply elem_of_tag_widths. lia. }
    rewrite (bool_decide_eq_true_2 _ Hw). cbn. eauto.
Qed.

End TagFacts.

(** ** The name of a composite type *)

Section NameFacts.
Context `{Imports}.

Lemma lstrip_head (s : str) c :
  head (Str.lstrip s) = Some c → Str.isspace c = false.
Proof.
  induction s as [|x s IH]; [done|]. cbn [Str.lstrip].
  destruct (Str.isspace x) eqn:Hx; [done|].
  cbn [head]. by intros [= <-].
Qed.

Lemma lstrip_suffix (s : str) : ∃ spaces, s = spaces ++ Str.lstrip s.
Proof.
  induction s as [|x s [spaces IH]]; [by exists []|]. cbn [Str.lstrip].
  destruct (Str.isspace x).
  - exists (x :: spaces). cbn [app]. by rewrite <- IH.
  - by exists [].
Qed.

Lemma lstrip_only_whitespace (s : str) : only_whitespace s → Str.lstrip s = [].
Proof.
  induction 1 as [|x s Hx _ IH]; [done|]. cbn [Str.lstrip]. by rewrite Hx.
Qed.

Lemma rstrip_prefix (s : str) : ∃ spaces, s = Str.rstrip s ++ spaces.
Proof.
  unfold Str.rstrip. destruct (lstrip_suffix (rev s)) as [spaces Hs].
  exists (rev spaces). rewrite <- rev_app_distr, <- Hs. by rewrite rev_involutive.
Qed.

Lemma rstrip_last (s : str) c :
  last (Str.rstrip s) = Some c → Str.isspace c = false.
Proof.
  unfold Str.rstrip. intros Hc. apply (lstrip_head (rev s)).
  destruct (Str.lstrip (rev s)) as [|x l]; [done|].
  cbn [rev] in Hc. by rewrite last_snoc in Hc.
Qed.

Lemma strip_no_surrounding_whitespace (s : str) :
  no_surrounding_whitespace (Str.strip s).
Proof.
  unfold Str.strip. split.
  - intros c Hc. destruct (rstrip_prefix (Str.lstrip s)) as [spaces Hs].
    apply (lstrip_head s). rewrite Hs.
    destruct (Str.rstrip (Str.lstrip s)); [done|]. done.
  - apply rstrip_last.
Qed.

Lemma strip_only_whitespace (s : str) : only_whitespace s → Str.strip s = [].
Proof. intros Hs. unfold Str.strip. by rewrite lstrip_only_whitespace. Qed.

(** C10. [CompositeType.__init__] strips the name before anything else, so
    that two names with the same stripped form give the same outcome; the
    full name of a constructed type is the stripped name and carries no
    surrounding whitespace; and a name that consists only of whitespace
    raises [InvalidNameError] for an empty name, whenever the caller keeps
    the precondition on the parent service. *)
Theorem name_is_stripped :
  (∀ cls name name' ver attrs ext fin dep port path par,
     Str.strip name = Str.strip name' →
     CompositeType_init cls name ver attrs ext fin dep port path par =
     CompositeType_init cls name' ver attrs ext fin dep port path par) ∧
  (∀ t, constructed t → no_surrounding_whitespace (full_name t)) ∧
  (∀ cls name ver attrs ext fin dep port path par t,
     CompositeType_init cls name ver attrs ext fin dep port path par = Ok t →
     full_name t = Str.strip name) ∧
  (∀ cls name ver attrs ext fin dep port path par,
     only_whitespace name →
     parent_service_precondition name par →
     CompositeType_init cls name ver attrs ext fin dep port path par
       = Raise (InvalidNameError NameEmpty)).
Proof.
  split; [|split; [|split]].
  - intros * Hstrip. unfold CompositeType_init. by rewrite Hstrip.
  - intros t (cls & name & ver & attrs & ext & fin & dep & port & path & par & Hinit).
    apply CompositeType_init_inv in Hinit as (_ & _ & _ & _ & _ & _ & Ht & _).
    unfold full_name. rewrite Ht. cbn [_name]. apply strip_no_surrounding_whitespace.
  - intros * Hinit.
    apply CompositeType_init_inv in Hinit as (_ & _ & _ & _ & _ & _ & Ht & _).
    unfold full_name. by rewrite Ht.
  - intros * Hws Hpre. unfold parent_service_precondition in Hpre.
    destruct par as [ps|].
    + specialize (Hpre ps eq_refl).
      by rewrite (strip_only_whitespace _ Hws) in Hpre.
    + unfold CompositeType_init. by rewrite (strip_only_whitespace _ Hws).
Qed.

End NameFacts.

(** ** Unions *)

Section UnionFacts.
Context `{Imports}.

(** With one variant the base class constructs and the union check
    rejects. *)
Lemma union_one_variant_malformed name ver attrs ext fin dep port path par t :
  CompositeType_init UnionTypeClass name ver attrs ext fin dep port path par = Ok t →
  (number_of_variants t < 2)%nat →
  UnionType_init name ver attrs ext fin dep port path par
    = Raise (MalformedUnionError TooFewVariants).
Proof.
  intros Hinit Hk. unfold UnionType_init. rewrite Hinit. cbn [mbind Result_bind].
  unfold MIN_NUMBER_OF_VARIANTS.
  destruct (Nat.ltb_spec (number_of_variants t) 2); [done | lia].
Qed.

(** A padding field, an unnamed attribute or a void-typed attribute in a
    container of attributes is rejected, once the base class has
    constructed. *)
Lemma union_padding_in_sequence_malformed name ver l ext fin dep port path par t a :
  CompositeType_init UnionTypeClass name ver (Iterable.Sequence l) ext fin dep
    port path par = Ok t →
  a ∈ l →
  is_PaddingField a || negb (Str.truthy (attribute_name a))
    || is_VoidType (attribute_data_type a) = true →
  ∃ why,
    UnionType_init name ver (Iterable.Sequence l) ext fin dep port path par
      = Raise (MalformedUnionError why).
Proof.
  intros Hinit Ha Hbad. unfold UnionType_init. rewrite Hinit. cbn [mbind Result_bind].
  destruct (number_of_variants t <? MIN_NUMBER_OF_VARIANTS)%nat; [by eexists|].
  cbn [raise_if mbind Result_bind Iterable.exhaust Iterable.items].
  assert (existsb
            (λ a, is_PaddingField a || negb (Str.truthy (attribute_name a))
                  || is_VoidType (attribute_data_type a)) l = true) as ->.
  { apply existsb_exists. exists a. split; [by apply list_elem_of_In | done]. }
  by eexists.
Qed.

Lemma max_Raise_inv (s : gset N) e : BitLengthSet.max s = Raise e → e = ValueError.
Proof. unfold BitLengthSet.max. case_decide; congruence. Qed.

Lemma alignment_requirement_of_Raise_inv attrs e :
  alignment_requirement_of attrs = Raise e → e = TypeError.
Proof.
  unfold alignment_requirement_of, py_max_args.
  destruct (_ <$> fields_of attrs); congruence.
Qed.

Lemma check_attribute_names_Raise_inv used attrs e :
  check_attribute_names used attrs = Raise e → e = AttributeNameCollisionError.
Proof.
  revert used. induction attrs as [|a attrs IH]; intros used; cbn [check_attribute_names].
  - discriminate.
  - destruct (_ && _); [congruence | apply IH].
Qed.

(** With no field at all, neither the check of the union nor a success is
    ever reached: [alignment_requirement] raises in the base class. *)
Lemma union_without_fields_raises name ver attrs ext fin dep port path par :
  fields_of (Iterable.items attrs) = [] →
  ∃ e, UnionType_init name ver attrs ext fin dep port path par = Raise e ∧
       ∀ why, e ≠ MalformedUnionError why.
Proof.
  intros Hnil. unfold UnionType_init.
  destruct (CompositeType_init UnionTypeClass name ver attrs ext fin dep port path par)
    as [t|e] eqn:Hinit.
  - apply CompositeType_init_inv in Hinit as (_ & a & _ & _ & Ha & _).
    unfold alignment_requirement_of in Ha. by rewrite Hnil in Ha.
  - exists e. split; [done|]. intros why ->.
    unfold CompositeType_init in Hinit.
    repeat match type of Hinit with
    | (?m ≫= _) = Raise _ =>
        let Hm := fresh "Hm" in
        destruct m eqn:Hm; cbn [mbind Result_bind] in Hinit;
        [| try (injection Hinit as ->) ]
    end;
    repeat match goal with
    | Hr : raise_if ?c _ = Raise _ |- _ =>
        unfold raise_if in Hr; destruct c; discriminate
    | Hr : py_assert ?c = Raise _ |- _ =>
        unfold py_assert in Hr; destruct c; discriminate
    | Hr : BitLengthSet.max _ = Raise _ |- _ => by apply max_Raise_inv in Hr
    | Hr : alignment_requirement_of _ = Raise _ |- _ =>
        by apply alignment_requirement_of_Raise_inv in Hr
    | Hr : check_attribute_names _ _ = Raise _ |- _ =>
        by apply check_attribute_names_Raise_inv in Hr
    | Hr : aggregate_bit_length_sets_of UnionTypeClass _ = Raise _ |- _ =>
        unfold aggregate_bit_length_sets_of in Hr; by rewrite Hnil in Hr
    end; try discriminate.
    + destruct ext; [discriminate|]. destruct fin; [discriminate|].
      match goal with
      | Hr : (?m ≫= _) = Raise _ |- _ =>
          destruct m eqn:Hmax; cbn [mbind Result_bind] in Hr;
          [| by apply max_Raise_inv in Hmax; congruence ]
      end.
      match goal with
      | Hr : (?m ≫= _) = Raise _ |- _ =>
          destruct m eqn:Hmax'; cbn [mbind Result_bind] in Hr;
          [ discriminate | by apply max_Raise_inv in Hmax'; congruence ]
      end.
    + destruct port; [|discriminate]. cbn [is_ServiceType] in *.
      match goal with
      | Hr : raise_if ?c _ = Raise _ |- _ =>
          unfold raise_if in Hr; destruct c; discriminate
      end.
    + destruct par; [|discriminate].
      match goal with
      | Hr : (py_assert ?c ≫= _) = Raise _ |- _ =>
          destruct c; cbn [py_assert mbind Result_bind] in Hr; [|discriminate]
      end.
      match goal with
      | Hr : raise_if ?c _ = Raise _ |- _ =>
          unfold raise_if in Hr; destruct c; discriminate
      end.
Qed.

End UnionFacts.

(** ** What the code does where it departs from its description *)

Section Departures.
#[local] Existing Instance sample_imports.

(** C8. A union without any variant is not rejected as malformed: with
    [attributes=[]] the base class raises [TypeError], from
    [max(self.BITS_PER_BYTE, *(...))] over no field, before the check of the
    number of variants is reached. And a union whose attributes arrive as a
    one-shot iterator is constructed with its padding field: the loop that
    rejects padding walks the argument, which the base class has
    exhausted. *)
Theorem union_without_variants_raises_TypeError :
  UnionType_init (Str.lit "a.A") version_0_1 (Iterable.Sequence []) None true
    false None [] None = Raise TypeError ∧
  UnionType_init (Str.lit "a.A") version_0_1 (Iterable.Sequence []) None false
    false None [] None = Raise TypeError ∧
  ∃ u,
    UnionType_init (Str.lit "a.A") version_0_1
      (Iterable.Iterator two_fields_and_padding) None true false None [] None
      = Ok u ∧
    PaddingField 16 ∈ attributes (union_base u).
Proof.
  split_and!; [by vm_compute | by vm_compute |].
  eexists. split; [by vm_compute|].
  cbn. unfold two_fields_and_padding. set_solver.
Qed.

(** The same attributes in a list are rejected, as the unit test expects. *)
Lemma union_with_padding_in_list_malformed :
  UnionType_init (Str.lit "a.A") version_0_1
    (Iterable.Sequence two_fields_and_padding) None true false None [] None
    = Raise (MalformedUnionError PaddingNotAllowed).
Proof. by vm_compute. Qed.

(** The base class never constructs a service: it calls
    [_aggregate_bit_length_sets], which a service overrides to raise. *)
Lemma service_base_never_constructs `{Imports} name ver attrs ext fin dep port path par t :
  CompositeType_init ServiceTypeClass name ver attrs ext fin dep port path par ≠ Ok t.
Proof.
  intros Hinit. by apply CompositeType_init_inv in Hinit as (? & ? & ? & ? & _).
Qed.

(** C1. No construction of a service succeeds: every call of
    [ServiceType.__init__] raises. For the request and response parameters
    of two final structures of two 16-bit fields, both halves construct and
    the service then raises [TypeError]. *)
Theorem service_construction_raises :
  (∀ `{Imports} self name ver req resp dep port path,
     ∃ e, ServiceType_init self name ver req resp dep port path = Raise e) ∧
  (∃ request,
     MessageType_init (is_union sample_params) (Str.lit "ns.S.Request")
       (mkVersion 1 0) (Iterable.Sequence (sp_attributes sample_params))
       (sp_extent sample_params) (is_final sample_params) false None []
       (Some (mkRef 1 ServiceTypeClass)) = Ok request) ∧
  (∃ response,
     MessageType_init (is_union sample_params) (Str.lit "ns.S.Response")
       (mkVersion 1 0) (Iterable.Sequence (sp_attributes sample_params))
       (sp_extent sample_params) (is_final sample_params) false None []
       (Some (mkRef 1 ServiceTypeClass)) = Ok response) ∧
  ServiceType_init 1 (Str.lit "ns.S") (mkVersion 1 0) sample_params sample_params
    false None [] = Raise TypeError.
Proof.
  split_and!.
  - intros I self name ver req resp dep port path.
    destruct (ServiceType_init self name ver req resp dep port path) as [s|e] eqn:Hs;
      [|by eexists].
    unfold ServiceType_init in Hs. inv_Ok Hs.
    match goal with
    | Hb : CompositeType_init ServiceTypeClass _ _ _ _ _ _ _ _ _ = Ok _ |- _ =>
        by apply service_base_never_constructs in Hb
    end.
  - eexists. by vm_compute.
  - eexists. by vm_compute.
  - by vm_compute.
Qed.

End Departures.

(** ** The statements at the sample values *)

Section Examples.
#[local] Existing Instance sample_imports.

Ltac construct cls fin :=
  exists cls, (Str.lit "a.A"), version_0_1, (Iterable.Sequence two_fields),
         None, fin, false, None, [], None;
  vm_compute; reflexivity.

Lemma final_structure_bit_length_set_witness :
  constructed sample_structure ∧
  class sample_structure = StructureTypeClass ∧
  final sample_structure = true ∧
  ∃ a : positive,
    alignment_requirement sample_structure = Ok a ∧
    bit_length_set sample_structure =
      Ok (BitLengthSet.pad_to_alignment a
            (fold_fields BitLengthSet.add
               (attribute_data_type <$> fields sample_structure))) ∧
    (Forall (λ ft, type_bit_length_set ft ≠ ∅)
       (attribute_data_type <$> fields sample_structure) →
     bit_length_set sample_structure =
       Ok (BitLengthSet.pad_to_alignment a
             (fold_fields pointwise_sum
                (attribute_data_type <$> fields sample_structure)))).
Proof.
  assert (constructed sample_structure) as Hc by construct StructureTypeClass true.
  split_and!; [exact Hc | reflexivity | reflexivity |].
  exact (final_structure_bit_length_set sample_structure Hc eq_refl eq_refl).
Defined.

Lemma final_extent_exact_witness :
  (constructed sample_structure ∧ final sample_structure = true ∧
   ∃ agg a m,
     _aggregate_bit_length_sets sample_structure = Ok agg ∧
     alignment_requirement sample_structure = Ok a ∧
     BitLengthSet.max (BitLengthSet.pad_to_alignment a agg) = Ok m ∧
     extent sample_structure = Z.of_N m) ∧
  (StructureType_init (Str.lit "a.A") version_0_1 (Iterable.Sequence two_fields)
     None true false None [] None = Ok sample_structure ∧
   40%Z ≠ extent sample_structure ∧
   StructureType_init (Str.lit "a.A") version_0_1 (Iterable.Sequence two_fields)
     (Some 40%Z) true false None [] None = Raise InvalidExtentError) ∧
  (CompositeType_init UnionTypeClass (Str.lit "a.A") version_0_1
     (Iterable.Sequence two_fields) None true false None [] None
     = Ok (union_base sample_union) ∧
   32%Z ≠ extent (union_base sample_union) ∧
   UnionType_init (Str.lit "a.A") version_0_1 (Iterable.Sequence two_fields)
     (Some 32%Z) true false None [] None = Raise InvalidExtentError).
Proof.
  assert (constructed sample_structure) as Hc by construct StructureTypeClass true.
  assert (StructureType_init (Str.lit "a.A") version_0_1
            (Iterable.Sequence two_fields) None true false None [] None
          = Ok sample_structure) as Hs by (vm_compute; reflexivity).
  assert (CompositeType_init UnionTypeClass (Str.lit "a.A") version_0_1
            (Iterable.Sequence two_fields) None true false None [] None
          = Ok (union_base sample_union)) as Hu by (vm_compute; reflexivity).
  assert (40%Z ≠ extent sample_structure) as Hne by (vm_compute; discriminate).
  assert (32%Z ≠ extent (union_base sample_union)) as Hne'
    by (vm_compute; discriminate).
  destruct final_extent_exact as (Hfinal & Hbase & Hstruct & Hunion).
  split_and!; [exact Hc | reflexivity | | exact Hs | exact Hne | | exact Hu | exact Hne' |].
  - exact (Hfinal sample_structure Hc eq_refl).
  - exact (Hstruct _ _ _ _ _ _ _ _ _ Hs Hne).
  - exact (Hunion _ _ _ _ _ _ _ _ _ Hu Hne').
Defined.

Lemma alignment_requirement_largest_witness :
  constructed sample_structure ∧
  ∃ a : positive,
    alignment_requirement sample_structure = Ok a ∧
    a = largest_of 8 (alignments (fields_except_padding sample_structure)) ∧
    (8 <= a)%positive ∧
    Forall (λ x, (x <= a)%positive)
      (alignments (fields_except_padding sample_structure)) ∧
    (a = 8%positive ∨ a ∈ alignments (fields_except_padding sample_structure)).
Proof.
  assert (constructed sample_structure) as Hc by construct StructureTypeClass true.
  split; [exact Hc|].
  exact (alignment_requirement_largest sample_structure Hc).
Defined.

Lemma union_tag_bit_length_witness :
  (UnionType_compute_tag_bit_length [uint16; int16] = Ok 8 ∧
   2 <= N.of_nat (length [uint16; int16]) ∧
   ∃ b p,
     is_bit_length (N.of_nat (length [uint16; int16]) - 1) b ∧
     rounds_up_to_power_of_two 8 b p ∧
     p <= 8 ∧
     Forall (λ t, N.pos (type_alignment_requirement t) <= 8) [uint16; int16] ∧
     (8 = p ∨ ∃ t, t ∈ [uint16; int16] ∧ 8 = N.pos (type_alignment_requirement t)) ∧
     8 ∈ [8; 16; 32; 64]) ∧
  (UnionType_init (Str.lit "a.A") version_0_1 (Iterable.Sequence two_fields)
     None true false None [] None = Ok sample_union ∧
   (2 <= number_of_variants (union_base sample_union))%nat ∧
   UnionType_compute_tag_bit_length
     (attribute_data_type <$> fields (union_base sample_union))
     = Ok (bit_length (tag_field_type sample_union)) ∧
   bit_length (tag_field_type sample_union) ∈ [8; 16; 32; 64]) ∧
  ∃ w, UnionType_compute_tag_bit_length [uint16; int16] = Ok w.
Proof.
  assert (UnionType_compute_tag_bit_length [uint16; int16] = Ok 8) as Ht
    by (vm_compute; reflexivity).
  assert (UnionType_init (Str.lit "a.A") version_0_1
            (Iterable.Sequence two_fields) None true false None [] None
          = Ok sample_union) as Hu by (vm_compute; reflexivity).
  destruct union_tag_bit_length as (Hcompute & Hunion & Hreturns).
  split; [|split].
  - split; [exact Ht|]. exact (Hcompute [uint16; int16] 8 Ht).
  - split; [exact Hu|]. exact (Hunion _ _ _ _ _ _ _ _ _ _ Hu).
  - apply (Hreturns [uint16; int16]).
    + simpl. lia.
    + vm_compute. discriminate.
    + repeat constructor; vm_compute; discriminate.
Defined.

Lemma non_final_bit_length_set_witness :
  constructed sample_delimited_structure ∧
  final sample_delimited_structure = false ∧
  ∃ (a : positive) (u : UnsignedIntegerType) (s : gset N),
    alignment_requirement sample_delimited_structure = Ok a ∧
    delimiter_header_type sample_delimited_structure = Ok (Some u) ∧
    bit_length u = N.max 32 (N.pos a) ∧
    bit_length_set sample_delimited_structure = Ok s ∧
    ∀ y, y ∈ s ↔
      ∃ x, (0 <= Z.of_N x <= extent sample_delimited_structure)%Z ∧
           y = BitLengthSet.pad_length a x + bit_length u.
Proof.
  assert (constructed sample_delimited_structure) as Hc
    by construct StructureTypeClass false.
  split_and!; [exact Hc | reflexivity |].
  exact (non_final_bit_length_set sample_delimited_structure Hc eq_refl).
Defined.

Lemma extent_multiple_of_alignment_witness :
  constructed sample_delimited_structure ∧
  ∃ a : positive,
    alignment_requirement sample_delimited_structure = Ok a ∧
    (Z.pos a | extent sample_delimited_structure)%Z ∧
    ∃ k : positive, a = (8 * k)%positive.
Proof.
  assert (constructed sample_delimited_structure) as Hc
    by construct StructureTypeClass false.
  split; [exact Hc|].
  exact (extent_multiple_of_alignment sample_delimited_structure Hc).
Defined.

Lemma set_error_location_if_unknown_frame_witness :
  ParseError._path sample_error = Some (Str.lit "a.uavcan") ∧
  Str.lit "a.uavcan" ≠ [] ∧
  ParseError.path
    (ParseError.set_error_location_if_unknown sample_error
       (Some (Str.lit "b.uavcan")) (Some 7%Z))
    = ParseError._path sample_error ∧
  ParseError.line
    (ParseError.set_error_location_if_unknown sample_error
       (Some (Str.lit "b.uavcan")) (Some 7%Z))
    = Some 7%Z.
Proof.
  assert (Str.lit "a.uavcan" ≠ []) as Hne by (vm_compute; discriminate).
  destruct (set_error_location_if_unknown_frame sample_error
              (Some (Str.lit "b.uavcan")) (Some 7%Z))
    as (Hpath & _ & _ & _ & _ & Hline & _).
  split_and!; [reflexivity | exact Hne | |].
  - exact (Hpath (Str.lit "a.uavcan") eq_refl Hne).
  - exact (Hline eq_refl eq_refl).
Defined.

Lemma name_is_stripped_witness :
  (Str.strip (32 :: Str.lit "a.A") = Str.strip (Str.lit "a.A") ∧
   CompositeType_init StructureTypeClass (32 :: Str.lit "a.A") version_0_1
     (Iterable.Sequence two_fields) None true false None [] None
   = CompositeType_init StructureTypeClass (Str.lit "a.A") version_0_1
       (Iterable.Sequence two_fields) None true false None [] None) ∧
  (constructed sample_structure ∧
   no_surrounding_whitespace (full_name sample_structure)) ∧
  (CompositeType_init StructureTypeClass (32 :: Str.lit "a.A") version_0_1
     (Iterable.Sequence two_fields) None true false None [] None
   = Ok sample_structure ∧
   full_name sample_structure = Str.strip (32 :: Str.lit "a.A")) ∧
  (only_whitespace [32; 9] ∧
   parent_service_precondition [32; 9] None ∧
   CompositeType_init StructureTypeClass [32; 9] version_0_1
     (Iterable.Sequence two_fields) None true false None [] None
   = Raise (InvalidNameError NameEmpty)).
Proof.
  assert (constructed sample_structure) as Hc by construct StructureTypeClass true.
  assert (Str.strip (32 :: Str.lit "a.A") = Str.strip (Str.lit "a.A")) as Hstrip
    by (vm_compute; reflexivity).
  assert (CompositeType_init StructureTypeClass (32 :: Str.lit "a.A") version_0_1
            (Iterable.Sequence two_fields) None true false None [] None
          = Ok sample_structure) as Hs by (vm_compute; reflexivity).
  assert (only_whitespace [32; 9]) as Hws
    by (repeat constructor; vm_compute; reflexivity).
  assert (parent_service_precondition [32; 9] None) as Hpre
    by (intros ps Hps; discriminate Hps).
  destruct name_is_stripped as (Hsame & Hclean & Hfull & Hempty).
  split; [|split; [|split]].
  - split; [exact Hstrip|].
    exact (Hsame StructureTypeClass (32 :: Str.lit "a.A") (Str.lit "a.A")
             version_0_1 (Iterable.Sequence two_fields) None true false None []
             None Hstrip).
  - split; [exact Hc|]. exact (Hclean sample_structure Hc).
  - split; [exact Hs|].
    exact (Hfull StructureTypeClass (32 :: Str.lit "a.A") version_0_1
             (Iterable.Sequence two_fields) None true false None [] None
             sample_structure Hs).
  - split; [exact Hws|]. split; [exact Hpre|].
    exact (Hempty StructureTypeClass [32; 9] version_0_1
             (Iterable.Sequence two_fields) None true false None [] None Hws Hpre).
Defined.

End Examples.

(** * Further properties *)

(** ** Parse errors: location and message *)

Section ParseErrorMore.
Import ParseError.

Example format_d_examples :
  format_d 123 = Str.lit "123" ∧ format_d 0 = Str.lit "0" ∧
  format_d (-40) = Str.lit "-40" ∧ format_d 1000 = Str.lit "1000".
Proof. by vm_compute. Qed.

Lemma set_error_location_fields e p l :
  _path (set_error_location_if_unknown e p l)
    = (if negb (truthy_path (_path e)) && truthy_path p then p else _path e) ∧
  _line (set_error_location_if_unknown e p l)
    = (if negb (truthy_line (_line e)) && truthy_line l then l else _line e) ∧
  text (set_error_location_if_unknown e p l) = text e.
Proof.
  unfold set_error_location_if_unknown.
  destruct (negb (truthy_path (_path e)) && truthy_path p);
    cbn [_path _line text];
    destruct (negb (truthy_line (_line e)) && truthy_line l); done.
Qed.

Lemma ParseError_eq (e e' : t) :
  text e = text e' → _path e = _path e' → _line e = _line e' → e = e'.
Proof. destruct e, e'; cbn. by intros -> -> ->. Qed.

Lemma set_error_location_path_known e p l :
  truthy_path p = true →
  truthy_path (_path (set_error_location_if_unknown e p l)) = true.
Proof.
  intros Hp. destruct (set_error_location_fields e p l) as (-> & _ & _).
  rewrite Hp. by destruct (truthy_path (_path e)) eqn:He.
Qed.

Lemma set_error_location_line_known e p l :
  truthy_line l = true →
  truthy_line (_line (set_error_location_if_unknown e p l)) = true.
Proof.
  intros Hl. destruct (set_error_location_fields e p l) as (_ & -> & _).
  rewrite Hl. by destruct (truthy_line (_line e)) eqn:He.
Qed.

(** X1. A location that has been filled in stays: after a call of
    [set_error_location_if_unknown] with a non-empty path and a non-zero
    line, no later call changes the error; and calling it twice with the same
    arguments is the same as calling it once. *)
Theorem set_error_location_settles (e : t) (p p' : option str) (l l' : option Z) :
  (truthy_path p = true → truthy_line l = true →
   set_error_location_if_unknown (set_error_location_if_unknown e p l) p' l'
   = set_error_location_if_unknown e p l) ∧
  set_error_location_if_unknown (set_error_location_if_unknown e p l) p l
  = set_error_location_if_unknown e p l.
Proof.
  split.
  - intros Hp Hl.
    destruct (set_error_location_fields
                (set_error_location_if_unknown e p l) p' l') as (Hpath & Hline & Htext).
    apply ParseError_eq; [done | |].
    + by rewrite Hpath, (set_error_location_path_known e p l Hp).
    + by rewrite Hline, (set_error_location_line_known e p l Hl).
  - destruct (set_error_location_fields
                (set_error_location_if_unknown e p l) p l) as (Hpath & Hline & Htext).
    apply ParseError_eq; [done | |].
    + rewrite Hpath. destruct (truthy_path p) eqn:Hp.
      * by rewrite (set_error_location_path_known e p l Hp).
      * by rewrite andb_false_r.
    + rewrite Hline. destruct (truthy_line l) eqn:Hl.
      * by rewrite (set_error_location_line_known e p l Hl).
      * by rewrite andb_false_r.
Qed.

(** X2. The message of a parse error shows the location only as far as it
    starts with a path: without a path the message is the text alone, even
    when a line is known; and an error raised without a location, once given
    a non-empty path and a non-zero line, prints as [path:line: text]. The
    text always ends the message. *)
Theorem ParseError_str_location :
  (∀ e, truthy_path (path e) = false → ParseError_str e = text e) ∧
  (∀ tx p l, p ≠ [] → l ≠ 0%Z →
     ParseError_str
       (set_error_location_if_unknown (__init__ tx None None) (Some p) (Some l))
     = p ++ Str.lit ":" ++ format_d l ++ Str.lit ": " ++ tx) ∧
  (∀ e, ∃ location, ParseError_str e = location ++ text e).
Proof.
  split_and!.
  - intros e He. unfold ParseError_str. by rewrite He.
  - intros tx p l Hp Hl.
    assert (Str.truthy p = true) as Hp' by by destruct p.
    assert ((l =? 0)%Z = false) as Hl' by by apply Z.eqb_neq.
    destruct (set_error_location_fields (__init__ tx None None) (Some p) (Some l))
      as (Hpath & Hline & Htext).
    cbn [__init__ _path _line text truthy_path truthy_line negb andb]
      in Hpath, Hline, Htext.
    rewrite Hp' in Hpath. rewrite Hl' in Hline. cbn [negb] in Hpath, Hline.
    unfold ParseError_str, Exception_str, path, line.
    rewrite Hpath, Hline, Htext. cbn [truthy_path truthy_line default].
    by rewrite Hp', Hl'.
  - intros e. unfold ParseError_str, Exception_str.
    repeat case_match.
    + eexists. by rewrite !app_assoc.
    + eexists. by rewrite !app_assoc.
    + by exists [].
Qed.

End ParseErrorMore.

(** ** What construction has validated *)

Section ValidationFacts.
Context `{Imports}.

(** Every check that a successful run of [CompositeType.__init__] has
    passed, in the order of the source. *)
Lemma CompositeType_init_validated cls name ver attrs ext fin dep port path par t :
  CompositeType_init cls name ver attrs ext fin dep port path par = Ok t →
  t = mkCompositeType cls (Str.strip name) ver (Iterable.items attrs) fin dep
        port path par (_extent t) ∧
  (∀ ps, par = Some ps →
     Str.endswith (Str.strip name) (Str.lit ".Request")
       || Str.endswith (Str.strip name) (Str.lit ".Response") = true ∧
     is_ServiceType (class_of ps) = true) ∧
  Str.truthy (Str.strip name) = true ∧
  Str.contains NAME_COMPONENT_SEPARATOR (Str.strip name) = true ∧
  (par = None → (length (Str.strip name) <= MAX_NAME_LENGTH)%nat) ∧
  forallb check_name (Str.split NAME_COMPONENT_SEPARATOR (Str.strip name)) = true ∧
  (0 <= major ver <= MAX_VERSION_NUMBER ∧ 0 <= minor ver <= MAX_VERSION_NUMBER ∧
   0 < major ver + minor ver)%Z ∧
  check_attribute_names ∅ (Iterable.items attrs) = Ok tt ∧
  (∀ port_id, port = Some port_id →
     (0 <= port_id <= if is_ServiceType cls then MAX_SERVICE_ID else MAX_SUBJECT_ID)%Z) ∧
  (dep = false →
     existsb (λ a, is_deprecated_composite (attribute_data_type a))
       (Iterable.items attrs) = false).
Proof.
  intros Hinit.
  pose proof (CompositeType_init_inv _ _ _ _ _ _ _ _ _ _ _ Hinit)
    as (_ & _ & _ & _ & _ & _ & Ht & _).
  split; [done|]. clear Ht.
  unfold CompositeType_init in Hinit.
  do 9 (let a := fresh "v" in
        let Ha := fresh "Hstep" in
        apply bind_Ok_inv in Hinit as (a & Ha & Hinit);
        try (apply raise_if_Ok_inv in Ha)).
  clear Hinit.
  repeat match goal with
  | Hb : negb _ = false |- _ => apply negb_false_iff in Hb
  end.
  split; [|split; [done|split; [done|split; [|split; [done|split; [|split;
    [|split]]]]]]].
  - intros ps ->. inv_Ok Hstep. by apply raise_if_Ok_inv, negb_false_iff in Hstep.
  - intros ->. rewrite bool_decide_eq_true_2, andb_true_r in Hstep2 by done.
    by apply Nat.ltb_ge in Hstep2.
  - rewrite !andb_true_iff in Hstep4. lia.
  - by destruct v5.
  - intros port_id ->. destruct (is_ServiceType cls);
      apply raise_if_Ok_inv, negb_false_iff in Hstep6;
      rewrite andb_true_iff in Hstep6; lia.
  - by intros ->.
Qed.

End ValidationFacts.

(** ** Names *)

Section NameDecomposition.
Context `{Imports}.

Lemma split_not_nil sep s : Str.split sep s ≠ [].
Proof.
  destruct s as [|c s]; cbn [Str.split]; [done|].
  destruct (c =? sep); [done|]. by destruct (Str.split sep s).
Qed.

(** Joining the components with the separator gives the string back. *)
Lemma join_split sep s : str_join [sep] (Str.split sep s) = s.
Proof.
  induction s as [|c s IH]; [done|]. cbn [Str.split].
  pose proof (split_not_nil sep s) as Hne.
  destruct (N.eqb_spec c sep) as [->|Hc].
  - destruct (Str.split sep s) as [|w ws]; [done|].
    change (str_join [sep] ([] :: w :: ws))
      with ([] ++ [sep] ++ str_join [sep] (w :: ws)).
    by rewrite IH.
  - destruct (Str.split sep s) as [|w ws]; [done|].
    destruct ws as [|w' ws].
    + cbn [str_join] in *. by rewrite IH.
    + change (str_join [sep] ((c :: w) :: w' :: ws))
        with (c :: (w ++ [sep] ++ str_join [sep] (w' :: ws))).
      change (str_join [sep] (w :: w' :: ws))
        with (w ++ [sep] ++ str_join [sep] (w' :: ws)) in IH.
      by rewrite IH.
Qed.

(** No component holds the separator. *)
Lemma split_components sep s :
  Forall (λ w, Str.contains sep w = false) (Str.split sep s).
Proof.
  induction s as [|c s IH]; cbn [Str.split]; [by repeat constructor|].
  destruct (N.eqb_spec c sep) as [->|Hc]; [by constructor|].
  pose proof (split_not_nil sep s) as Hne.
  destruct (Str.split sep s) as [|w ws]; [done|].
  apply Forall_cons in IH as [Hw Hws]. constructor; [|done].
  unfold Str.contains in *. cbn [existsb]. rewrite Hw, orb_false_r.
  apply N.eqb_neq. congruence.
Qed.

(** A string that holds the separator has at least two components. *)
Lemma split_contains sep s :
  Str.contains sep s = true → (2 <= length (Str.split sep s))%nat.
Proof.
  unfold Str.contains. induction s as [|c s IH]; [done|].
  cbn [existsb Str.split]. pose proof (split_not_nil sep s) as Hne.
  rewrite N.eqb_sym.
  destruct (N.eqb_spec c sep) as [->|Hc]; cbn [orb].
  - intros _. destruct (Str.split sep s); [done|]. cbn. lia.
  - intros Hs. specialize (IH Hs).
    destruct (Str.split sep s) as [|w ws]; [done|]. exact IH.
Qed.

Lemma str_join_snoc sep l w :
  l ≠ [] → str_join sep (l ++ [w]) = str_join sep l ++ sep ++ w.
Proof.
  induction l as [|x l IH]; [done|]. intros _.
  destruct l as [|y l]; [done|].
  change (str_join sep ((x :: y :: l) ++ [w]))
    with (x ++ sep ++ str_join sep ((y :: l) ++ [w])).
  rewrite IH by done.
  change (str_join sep (x :: y :: l)) with (x ++ sep ++ str_join sep (y :: l)).
  by rewrite <- !app_assoc.
Qed.

(** X3. The name of a constructed composite type decomposes and composes
    back: it has at least two components, [short_name] and [root_namespace]
    never fail, the full name is the full namespace, a dot and the short
    name, it starts with the root namespace and a dot, and neither the short
    name nor the root namespace holds a dot. *)
Theorem name_decomposition (t : CompositeType) :
  constructed t →
  ∃ short root : str,
    short_name t = Some short ∧
    root_namespace t = Some root ∧
    (2 <= length (name_components t))%nat ∧
    full_name t = full_namespace t ++ Str.lit "." ++ short ∧
    (∃ rest, full_name t = root ++ Str.lit "." ++ rest) ∧
    Str.contains NAME_COMPONENT_SEPARATOR short = false ∧
    Str.contains NAME_COMPONENT_SEPARATOR root = false.
Proof.
  intros (cls & name & ver & attrs & ext & fin & dep & port & path & par & Hinit).
  apply CompositeType_init_validated in Hinit as (Ht & _ & _ & Hdot & _).
  unfold short_name, root_namespace, full_namespace, name_components, full_name.
  rewrite Ht. cbn [_name]. set (n := Str.strip name) in *. clearbody n.
  pose proof (split_contains _ _ Hdot) as Hlen.
  pose proof (join_split NAME_COMPONENT_SEPARATOR n) as Hjoin.
  pose proof (split_components NAME_COMPONENT_SEPARATOR n) as Hsep.
  destruct (Str.split NAME_COMPONENT_SEPARATOR n) as [|root l] eqn:Hsplit;
    [cbn in Hlen; lia|].
  destruct (last (root :: l)) as [short|] eqn:Hlast;
    [|by apply last_None in Hlast].
  exists short, root. apply last_Some in Hlast as [init Hinit].
  assert (init ≠ []) as Hne.
  { intros ->. rewrite Hinit in Hlen. cbn in Hlen. lia. }
  split; [done|]. split; [done|]. split; [done|]. split; [|split; [|split]].
  - rewrite Hinit, removelast_last. rewrite <- Hjoin, Hinit.
    by apply str_join_snoc.
  - destruct l as [|w l]; [cbn in Hlen; lia|].
    exists (str_join [NAME_COMPONENT_SEPARATOR] (w :: l)). by rewrite <- Hjoin.
  - rewrite Hinit in Hsep. apply Forall_app in Hsep as [_ Hshort].
    rewrite Forall_singleton in Hshort. exact Hshort.
  - apply Forall_cons in Hsep as [Hroot _]. exact Hroot.
Qed.

(** X4. The name of a constructed composite type is valid: it is not empty,
    every component of it has passed [check_name], and it is at most 50
    characters long unless the type belongs to a service. A type that belongs
    to a service is named [....Request] or [....Response], and what it
    belongs to is a service. *)
Theorem constructed_name_valid (t : CompositeType) :
  constructed t →
  full_name t ≠ [] ∧
  Forall (λ component, check_name component = true) (name_components t) ∧
  (parent_service t = None → (length (full_name t) <= 50)%nat) ∧
  (∀ ps, parent_service t = Some ps →
     (Str.endswith (full_name t) (Str.lit ".Request") = true ∨
      Str.endswith (full_name t) (Str.lit ".Response") = true) ∧
     class_of ps = ServiceTypeClass).
Proof.
  intros (cls & name & ver & attrs & ext & fin & dep & port & path & par & Hinit).
  apply CompositeType_init_validated in Hinit
    as (Ht & Hpar & Hne & _ & Hlen & Hcomp & _).
  unfold full_name, name_components, parent_service. rewrite Ht.
  cbn [_name _parent_service]. split_and!.
  - by destruct (Str.strip name).
  - apply Forall_forall. intros x Hx.
    apply (proj1 (forallb_forall _ _) Hcomp). by apply list_elem_of_In.
  - exact Hlen.
  - intros ps Hps. destruct (Hpar ps Hps) as [Hsuffix Hclass]. split.
    + by apply orb_true_iff.
    + by destruct (class_of ps).
Qed.

End NameDecomposition.

(** ** Declared version, port identifier and dependencies *)

Section DeclarationFacts.
Context `{Imports}.

(** X5. The version of a constructed composite type has both numbers between
    0 and 255 and not both zero, and a fixed port identifier of a constructed
    type that is not a service lies between 0 and the subject bound. On the
    side of the check itself: when the arguments pass the checks on the
    parent service, the name, the version and the attribute names, a fixed
    port identifier outside 0 .. the bound of the class (the service bound
    for [ServiceType], the subject bound for every other) raises
    [InvalidFixedPortIDError]. *)
Theorem constructed_version_and_port_valid :
  (∀ t, constructed t →
     (0 <= major (version t) <= 255)%Z ∧
     (0 <= minor (version t) <= 255)%Z ∧
     (major (version t), minor (version t)) ≠ (0%Z, 0%Z) ∧
     (∀ port_id, fixed_port_id t = Some port_id →
        has_fixed_port_id t = true ∧
        (0 <= port_id)%Z ∧
        (class t ≠ ServiceTypeClass → (port_id <= MAX_SUBJECT_ID)%Z))) ∧
  (∀ cls name ver attrs ext fin dep port_id path par,
     passes_checks_before_port_id name ver attrs par →
     ¬ (0 <= port_id <= max_port_id cls)%Z →
     CompositeType_init cls name ver attrs ext fin dep (Some port_id) path par
       = Raise InvalidFixedPortIDError).
Proof.
  split.
  - intros t
      (cls & name & ver & attrs & ext & fin & dep & port & path & par & Hinit).
    apply CompositeType_init_validated in Hinit
      as (Ht & _ & _ & _ & _ & _ & Hver & _ & Hport & _).
    unfold version, fixed_port_id, has_fixed_port_id, fixed_port_id. rewrite Ht.
    cbn [_version _fixed_port_id class]. unfold MAX_VERSION_NUMBER in Hver.
    split; [lia|]. split; [lia|]. split.
    + intros [= Hmaj Hmin]. lia.
    + intros port_id ->. specialize (Hport port_id eq_refl).
      split; [done|]. split; [lia|].
      intros Hcls. destruct cls; cbn in Hport; try lia. done.
  - intros * (Hpar & Hne & Hsep & Hlen & Hcomp & Hver & Hnames) Hport.
    unfold CompositeType_init.
    assert (match par with
            | Some ps =>
                py_assert (Str.endswith (Str.strip name) (Str.lit ".Request")
                           || Str.endswith (Str.strip name) (Str.lit ".Response"));;
                raise_if (negb (is_ServiceType (class_of ps))) ValueError
            | None => Ok tt
            end = Ok tt) as ->.
    { destruct par as [ps|]; [|done].
      destruct (Hpar ps eq_refl) as [-> ->]. done. }
    cbn [mbind Result_bind]. rewrite Hne, Hsep. cbn [negb raise_if mbind Result_bind].
    assert ((MAX_NAME_LENGTH <? length (Str.strip name))%nat
            && bool_decide (par = None) = false) as ->.
    { destruct par as [ps|].
      - rewrite bool_decide_eq_false_2 by done. apply andb_false_r.
      - apply andb_false_intro1, Nat.ltb_ge. by apply Hlen. }
    cbn [raise_if mbind Result_bind]. rewrite Hcomp.
    cbn [negb raise_if mbind Result_bind].
    assert (((0 <=? major ver) && (major ver <=? MAX_VERSION_NUMBER)
             && ((0 <=? minor ver) && (minor ver <=? MAX_VERSION_NUMBER))
             && (0 <? major ver + minor ver))%Z = true) as ->.
    { rewrite !andb_true_iff. lia. }
    cbn [negb raise_if mbind Result_bind]. rewrite Hnames.
    cbn [mbind Result_bind]. unfold max_port_id in Hport.
    destruct (is_ServiceType cls).
    + assert (((0 <=? port_id) && (port_id <=? MAX_SERVICE_ID))%Z = false) as ->
        by (apply andb_false_iff; lia).
      done.
    + assert (((0 <=? port_id) && (port_id <=? MAX_SUBJECT_ID))%Z = false) as ->
        by (apply andb_false_iff; lia).
      done.
Qed.

(** X6. A constructed composite type that is not deprecated depends on no
    deprecated composite type: none of its attributes, constants and padding
    included, has one for its data type. *)
Theorem constructed_deprecation_consistent (t : CompositeType) :
  constructed t → deprecated t = false →
  Forall (λ a, is_deprecated_composite (attribute_data_type a) = false)
    (attributes t).
Proof.
  intros (cls & name & ver & attrs & ext & fin & dep & port & path & par & Hinit).
  apply CompositeType_init_validated in Hinit
    as (Ht & _ & _ & _ & _ & _ & _ & _ & _ & Hdep).
  unfold deprecated, attributes. rewrite Ht. cbn [_deprecated _attributes].
  intros ->. specialize (Hdep eq_refl).
  apply Forall_forall. intros a Ha.
  destruct (is_deprecated_composite (attribute_data_type a)) eqn:Hd; [|done].
  assert (existsb (λ a, is_deprecated_composite (attribute_data_type a))
            (Iterable.items attrs) = true) as Hex.
  { apply existsb_exists. exists a. split; [by apply list_elem_of_In | done]. }
  congruence.
Qed.

End DeclarationFacts.

(** ** Attributes by name *)

Section AttributeFacts.
Context `{Imports}.

(** The dictionary maps a name to the last attribute other than padding that
    carries it. *)
Lemma attributes_by_name_lookup (l : list Attribute) (d : gmap str Attribute) k :
  foldl (λ d a, if is_PaddingField a then d else <[ attribute_name a := a ]> d) d l
    !! k
  = match last (filter (named k) l) with
    | Some a => Some a
    | None => d !! k
    end.
Proof.
  revert d. induction l as [|a l IH]; intros d; [done|].
  cbn [foldl]. rewrite IH. rewrite filter_cons.
  destruct (decide (named k a)) as [[Hpad Hname]|Hnot].
  - rewrite last_cons. destruct (last (filter (named k) l)); [done|].
    rewrite Hpad, <- Hname. by rewrite lookup_insert_eq.
  - destruct (last (filter (named k) l)); [done|].
    destruct (is_PaddingField a) eqn:Hpad; [done|].
    rewrite lookup_insert_ne; [done|]. intros Hname. apply Hnot. by split.
Qed.

(** The attribute check leaves no two attributes under one non-empty name. *)
Lemma check_attribute_names_unique used (l : list Attribute) :
  check_attribute_names used l = Ok tt →
  (∀ a, a ∈ l → attribute_name a ≠ [] → attribute_name a ∉ used) ∧
  (∀ i j a b, l !! i = Some a → l !! j = Some b →
     attribute_name a = attribute_name b → attribute_name a ≠ [] → i = j).
Proof.
  revert used. induction l as [|x l IH]; intros used Hcheck.
  - split; [by intros a Ha%elem_of_nil | by intros i j a b Hi].
  - cbn [check_attribute_names] in Hcheck.
    destruct (Str.truthy (attribute_name x)
              && bool_decide (attribute_name x ∈ used)) eqn:Hx; [done|].
    destruct (IH _ Hcheck) as [IHused IHunique].
    assert (∀ b, b ∈ l → attribute_name b ≠ [] →
              attribute_name b ≠ attribute_name x) as Hfresh.
    { intros b Hb Hne Heq. apply (IHused b Hb Hne). set_solver. }
    split.
    + intros a Ha Hne. apply elem_of_cons in Ha as [->|Ha].
      * apply andb_false_iff in Hx as [Hx|Hx].
        -- by destruct (attribute_name x).
        -- by apply bool_decide_eq_false in Hx.
      * intros Hin. apply (IHused a Ha Hne). set_solver.
    + intros [|i] [|j] a b Hi Hj Heq Hne; cbn in Hi, Hj.
      * done.
      * injection Hi as ->. exfalso.
        apply (Hfresh b); [by eapply list_elem_of_lookup_2 | congruence | done].
      * injection Hj as ->. exfalso.
        apply (Hfresh a); [by eapply list_elem_of_lookup_2 | done | done].
      * f_equal. by eapply IHunique.
Qed.

(** X7. In a constructed composite type no two attributes share a non-empty
    name, and every attribute other than padding that has a name is what
    [__getitem__] returns for that name. *)
Theorem getitem_finds_named_attributes (t : CompositeType) :
  constructed t →
  (∀ i j a b, attributes t !! i = Some a → attributes t !! j = Some b →
     attribute_name a = attribute_name b → attribute_name a ≠ [] → i = j) ∧
  (∀ a, a ∈ attributes t → is_PaddingField a = false → attribute_name a ≠ [] →
     getitem t (attribute_name a) = Some a).
Proof.
  intros (cls & name & ver & attrs & ext & fin & dep & port & path & par & Hinit).
  apply CompositeType_init_validated in Hinit
    as (Ht & _ & _ & _ & _ & _ & _ & Hnames & _).
  apply check_attribute_names_unique in Hnames as [_ Hunique].
  unfold attributes, getitem, attributes_by_name_of. rewrite Ht. cbn [_attributes].
  split; [exact Hunique|].
  intros a Ha Hpad Hne. rewrite attributes_by_name_lookup, lookup_empty.
  assert (a ∈ filter (named (attribute_name a)) (Iterable.items attrs)) as Hin
    by (apply list_elem_of_filter; by repeat split).
  destruct (last (filter (named (attribute_name a)) (Iterable.items attrs)))
    as [b|] eqn:Hlast.
  - f_equal. apply last_Some_elem_of, list_elem_of_filter in Hlast as [[_ Hb] Hbin].
    apply list_elem_of_lookup in Ha as [i Hi]. apply list_elem_of_lookup in Hbin as [j Hj].
    assert (i = j) as -> by (by eapply Hunique).
    congruence.
  - apply last_None in Hlast. rewrite Hlast in Hin. by apply elem_of_nil in Hin.
Qed.

(** X8. What [__getitem__] returns is an attribute of the type other than
    padding, under the name asked for; it raises [KeyError] exactly when no
    such attribute carries the name. Padding fields, which have no name, are
    out of its reach: when every other attribute has a name, the empty name
    raises [KeyError]. *)
Theorem getitem_KeyError (t : CompositeType) (k : str) :
  (∀ a, getitem t k = Some a →
     a ∈ attributes t ∧ is_PaddingField a = false ∧ attribute_name a = k) ∧
  (getitem t k = None ↔
     ∀ a, a ∈ attributes t → is_PaddingField a = false → attribute_name a ≠ k) ∧
  (Forall (λ a, is_PaddingField a = false → attribute_name a ≠ []) (attributes t) →
   getitem t [] = None).
Proof.
  assert (∀ k, getitem t k = None ↔
     ∀ a, a ∈ attributes t → is_PaddingField a = false → attribute_name a ≠ k)
    as Hmiss.
  { intros k'. unfold getitem, attributes_by_name_of, attributes.
    rewrite attributes_by_name_lookup, lookup_empty. split.
    - intros Hnone a Ha Hpad Hname.
      assert (a ∈ filter (named k') (_attributes t)) as Hin
        by (apply list_elem_of_filter; by repeat split).
      destruct (last (filter (named k') (_attributes t))) eqn:Hlast; [done|].
      apply last_None in Hlast. rewrite Hlast in Hin. by apply elem_of_nil in Hin.
    - intros Hall.
      destruct (last (filter (named k') (_attributes t))) as [b|] eqn:Hlast; [|done].
      apply last_Some_elem_of, list_elem_of_filter in Hlast as [[Hpad Hname] Hb].
      by destruct (Hall b Hb Hpad). }
  split_and!.
  - intros a. unfold getitem, attributes_by_name_of, attributes.
    rewrite attributes_by_name_lookup, lookup_empty.
    destruct (last (filter (named k) (_attributes t))) as [b|] eqn:Hlast; [|done].
    intros [= <-].
    by apply last_Some_elem_of, list_elem_of_filter in Hlast as [[Hpad Hname] Hb].
  - apply Hmiss.
  - intros Hall. apply Hmiss. intros a Ha Hpad.
    rewrite Forall_forall in Hall. by apply Hall.
Qed.

End AttributeFacts.

(** ** More on the extent *)

Section ExtentMore.
Context `{Imports}.
Import BitLengthSet.

Lemma pad_length_mono r x y : x <= y → pad_length r x <= pad_length r y.
Proof.
  intros Hxy. destruct (pad_length_spec r x) as (_ & _ & _ & Hmin).
  destruct (pad_length_spec r y) as (Hdiv & Hle & _).
  apply Hmin; [done | lia].
Qed.

Lemma max_pad_to_alignment r (s : gset N) m :
  max s = Ok m → max (pad_to_alignment r s) = Ok (pad_length r m).
Proof.
  intros [Hm Hub]%max_spec. apply max_spec. split.
  - apply elem_of_pad_to_alignment. eauto.
  - intros y (x & -> & Hx)%elem_of_pad_to_alignment.
    apply pad_length_mono. by apply Hub.
Qed.

Lemma max_of_int x : max (of_int x) = Ok x.
Proof.
  apply max_spec. unfold of_int. split; [set_solver|].
  intros y Hy. apply elem_of_singleton in Hy. lia.
Qed.

Lemma max_pad_inv r (s : gset N) m :
  max (pad_to_alignment r s) = Ok m → ∃ l, max s = Ok l ∧ m = pad_length r l.
Proof.
  intros Hm. destruct (max s) as [l|e] eqn:Hs.
  - exists l. split; [done|].
    rewrite (max_pad_to_alignment r s l Hs) in Hm. congruence.
  - unfold max in Hs. case_decide as He; [|done]. subst s.
    rewrite pad_to_alignment_empty in Hm. unfold max in Hm.
    by rewrite decide_True in Hm.
Qed.

(** X9. A type that is not final and is given no extent gets twice the
    largest length of its aggregate bit length set, padded to its alignment
    requirement. This is at least the minimal extent, which is that largest
    length padded, and at most twice the minimal extent. *)
Theorem default_extent cls name ver attrs dep port path par (t : CompositeType) :
  CompositeType_init cls name ver attrs None false dep port path par = Ok t →
  ∃ agg a largest,
    _aggregate_bit_length_sets t = Ok agg ∧
    alignment_requirement t = Ok a ∧
    max agg = Ok largest ∧
    extent t = Z.of_N (pad_length a (2 * largest)) ∧
    (Z.of_N (pad_length a largest) <= extent t
       <= 2 * Z.of_N (pad_length a largest))%Z.
Proof.
  intros Hinit.
  apply CompositeType_init_inv in Hinit
    as (agg & a & m & Hagg & Ha & Hm & Ht & _ & _ & _ & _ & _ & _ & Hdefault & _).
  destruct (Hdefault eq_refl eq_refl) as (largest & padded & Hl & Hp & Hext).
  exists agg, a, largest.
  unfold _aggregate_bit_length_sets, alignment_requirement, attributes, extent.
  rewrite Ht. cbn [class _attributes _extent]. rewrite Ht in Hext. cbn [_extent] in Hext.
  rewrite (max_pad_to_alignment a _ _ (max_of_int (largest * 2))) in Hp.
  injection Hp as <-. rewrite Hext, (N.mul_comm largest 2).
  split_and!; try done.
  - apply N2Z.inj_le, pad_length_mono. lia.
  - destruct (pad_length_spec a (2 * largest)) as (_ & _ & _ & Hmin).
    destruct (pad_length_spec a largest) as ([k Hk] & Hle & _).
    assert (pad_length a (2 * largest) <= 2 * pad_length a largest); [|lia].
    apply Hmin; [|lia]. exists (2 * k). lia.
Qed.

(** X10. For a type that is not final, an explicit extent is accepted
    exactly when it is a multiple of the alignment requirement and not below
    the minimal extent: when the construction without an extent succeeds, the
    one with such an extent succeeds too and differs in the extent only, and
    the one with any other extent raises [InvalidExtentError]. *)
Theorem explicit_extent_accepted cls name ver attrs dep port path par
    (t : CompositeType) :
  CompositeType_init cls name ver attrs None false dep port path par = Ok t →
  ∃ agg a minimal,
    _aggregate_bit_length_sets t = Ok agg ∧
    alignment_requirement t = Ok a ∧
    max (pad_to_alignment a agg) = Ok minimal ∧
    ∀ e : Z,
      ((Z.pos a | e)%Z → (Z.of_N minimal <= e)%Z →
       CompositeType_init cls name ver attrs (Some e) false dep port path par
       = Ok (mkCompositeType (class t) (_name t) (_version t) (_attributes t)
               (_final t) (_deprecated t) (_fixed_port_id t)
               (_source_file_path t) (_parent_service t) e)) ∧
      (¬ ((Z.pos a | e)%Z ∧ (Z.of_N minimal <= e)%Z) →
       CompositeType_init cls name ver attrs (Some e) false dep port path par
       = Raise InvalidExtentError).
Proof.
  intros Hinit.
  pose proof (CompositeType_init_inv _ _ _ _ _ _ _ _ _ _ _ Hinit)
    as (agg & a & m & Hagg & Ha & Hm & Ht & Hge & Hmod & _).
  exists agg, a, m.
  unfold _aggregate_bit_length_sets, alignment_requirement, attributes.
  rewrite Ht. cbn [class _name _version _attributes _final _deprecated
                   _fixed_port_id _source_file_path _parent_service].
  split; [done|]. split; [done|]. split; [done|].
  intros e.
  unfold CompositeType_init in Hinit |- *.
  do 12 (let v := fresh "v" in
         let Hv := fresh "Hstep" in
         apply bind_Ok_inv in Hinit as (v & Hv & Hinit);
         try (apply raise_if_Ok_inv in Hv)).
  clear Hinit.
  repeat match goal with
  | Hs : ?c = Ok _ |- context [?c] => rewrite Hs; cbn [mbind Result_bind raise_if]
  | Hs : ?c = false |- context [raise_if ?c] => rewrite Hs; cbn [mbind Result_bind raise_if]
  end.
  rewrite Hagg in Hstep8. injection Hstep8 as <-.
  rewrite Ha in Hstep9. injection Hstep9 as <-.
  rewrite Hm in Hstep10. injection Hstep10 as <-.
  assert ((BITS_PER_BYTE <=? a)%positive = true) as -> by (by apply Pos.leb_le).
  assert ((N.pos a mod N.pos BITS_PER_BYTE =? 0) = true) as ->
    by (by apply N.eqb_eq).
  cbn [py_assert mbind Result_bind andb].
  assert ((8 | Z.pos a)%Z) as H8.
  { apply N.Div0.mod_divides in Hmod as [k Hk]. exists (Z.of_N k). lia. }
  split.
  - intros Hdiv Hmin.
    assert (e mod Z.pos a = 0)%Z as Hmoda by (by apply Z.mod_divide).
    assert (e mod Z.pos BITS_PER_BYTE = 0)%Z as Hmod8.
    { apply Z.mod_divide; [done|]. by etrans. }
    rewrite Hmoda, Hmod8. cbn [Z.eqb negb raise_if mbind Result_bind].
    rewrite (proj2 (Z.ltb_ge _ _) Hmin). cbn [raise_if mbind Result_bind].
    rewrite (proj2 (Z.leb_le _ _) Hmin). cbn [py_assert mbind Result_bind].
    by rewrite orb_true_r.
  - intros Hnot.
    destruct (e mod Z.pos a =? 0)%Z eqn:Hmoda; cbn [negb raise_if mbind Result_bind];
      [|done].
    destruct (e <? Z.of_N m)%Z eqn:Hlt; cbn [raise_if mbind Result_bind]; [done|].
    exfalso. apply Hnot. split.
    + apply Z.mod_divide; [done|]. by apply Z.eqb_eq.
    + by apply Z.ltb_ge.
Qed.

End ExtentMore.

(** ** More on bit length sets of composite types *)

Section BitLengthSetMore.
Context `{Imports}.
Import BitLengthSet.

(** The members of the bit length set of a type that is not final. *)
Lemma non_final_members (t : CompositeType) a :
  alignment_requirement t = Ok a → final t = false → (0 <= extent t)%Z →
  ∃ s, bit_length_set t = Ok s ∧
    ∀ y, y ∈ s ↔
      ∃ x, (Z.of_N x <= extent t)%Z ∧ y = pad_length a x + N.max 32 (N.pos a).
Proof.
  intros Ha Hfin Hext. unfold bit_length_set, delimiter_header_type.
  rewrite Hfin, Ha. cbn [negb mbind Result_bind bit_length].
  eexists. split; [done|]. intros y.
  unfold add_int, of_int. rewrite elem_of_add.
  rewrite or_zero_nonempty.
  2:{ apply pad_to_alignment_nonempty.
      assert (0 ∈ of_range (extent t + 1)) by (apply elem_of_of_range; lia).
      set_solver. }
  split.
  - intros (x & h & (x0 & -> & Hx0)%elem_of_pad_to_alignment & Hh & ->).
    apply elem_of_of_range in Hx0. apply elem_of_singleton in Hh as ->.
    exists x0. split; [lia|done].
  - intros (x & Hx & ->). eexists _, _.
    split; [|split; [by apply elem_of_singleton|done]].
    apply elem_of_pad_to_alignment. exists x. split; [done|].
    apply elem_of_of_range. lia.
Qed.

(** X11. The bit length set of a constructed composite type is never empty.
    For a final type its largest member is the extent. For a type that is
    not final its smallest member is the width of the delimiter header, the
    larger of 32 and the alignment requirement, and its largest member is the
    extent plus that width. *)
Theorem bit_length_set_bounds (t : CompositeType) :
  constructed t →
  ∃ (a : positive) (s : gset N),
    alignment_requirement t = Ok a ∧
    bit_length_set t = Ok s ∧
    s ≠ ∅ ∧
    (final t = true → max s = Ok (Z.to_N (extent t))) ∧
    (final t = false →
       max s = Ok (Z.to_N (extent t) + N.max 32 (N.pos a)) ∧
       N.max 32 (N.pos a) ∈ s ∧
       ∀ x, x ∈ s → N.max 32 (N.pos a) <= x).
Proof.
  intros Ht. apply constructed_inv in Ht
    as (agg & a & m & Hagg & Ha & Hm & _ & _ & Hmod & Hmin & Hfinal).
  exists a. destruct (final t) eqn:Hfin.
  - exists (pad_to_alignment a agg).
    unfold bit_length_set. rewrite Hfin, Hagg, Ha. cbn [mbind Result_bind].
    split_and!; try done.
    + by eapply max_Ok_nonempty.
    + intros _. rewrite (Hfinal eq_refl), N2Z.id. done.
  - destruct (non_final_members t a Ha Hfin ltac:(lia)) as (s & Hs & Hmem).
    exists s.
    assert (pad_length a (Z.to_N (extent t)) = Z.to_N (extent t)) as Hpadded.
    { apply pad_length_aligned. apply Z.mod_divide in Hmod as [k Hk]; [|lia].
      exists (Z.to_N k). nia. }
    assert (N.max 32 (N.pos a) ∈ s) as Hheader.
    { apply Hmem. exists 0. rewrite pad_length_0. split; [lia|done]. }
    split_and!; try done.
    + intros He. rewrite He in Hheader. set_solver.
    + intros _. split_and!; [|done|].
      * apply max_spec. split.
        -- apply Hmem. exists (Z.to_N (extent t)). rewrite Hpadded.
           split; [lia|done].
        -- intros y (x & Hx & ->)%Hmem. rewrite <- Hpadded.
           apply N.add_le_mono_r, pad_length_mono. lia.
      * intros y (x & Hx & ->)%Hmem. lia.
Qed.

(** X12. Every member of the bit length set of a constructed final type is
    a multiple of the alignment requirement. For a type that is not final
    this holds exactly when the alignment requirement divides the width of
    the delimiter header, that is, when it divides 32 or is at least 32. *)
Theorem bit_length_set_aligned (t : CompositeType) :
  constructed t →
  ∃ (a : positive) (s : gset N),
    alignment_requirement t = Ok a ∧
    bit_length_set t = Ok s ∧
    (final t = true → ∀ x, x ∈ s → (N.pos a | x)) ∧
    (final t = false →
       (∀ x, x ∈ s → (N.pos a | x)) ↔ ((N.pos a | 32) ∨ 32 <= N.pos a)).
Proof.
  intros Ht. apply constructed_inv in Ht
    as (agg & a & m & Hagg & Ha & Hm & _ & _ & Hmod & Hmin & Hfinal).
  exists a. destruct (final t) eqn:Hfin.
  - exists (pad_to_alignment a agg).
    unfold bit_length_set. rewrite Hfin, Hagg, Ha. cbn [mbind Result_bind].
    split_and!; try done.
    intros _ y (x & -> & _)%elem_of_pad_to_alignment.
    apply pad_length_spec.
  - destruct (non_final_members t a Ha Hfin ltac:(lia)) as (s & Hs & Hmem).
    exists s. split_and!; try done. intros _.
    assert ((N.pos a | N.max 32 (N.pos a)) ↔ ((N.pos a | 32) ∨ 32 <= N.pos a))
      as Hheader.
    { destruct (N.max_spec 32 (N.pos a)) as [[Hlt ->]|[Hle ->]].
      - split; [intros _; right; lia | done].
      - split; [by left|]. intros [Hd|Hge]; [done|].
        replace (N.pos a) with 32 by lia. done. }
    rewrite <- Hheader. split.
    + intros Hall. apply Hall, Hmem. exists 0. rewrite pad_length_0.
      split; [lia|done].
    + intros Hd y (x & _ & ->)%Hmem.
      apply N.divide_add_r; [apply pad_length_spec | done].
Qed.

End BitLengthSetMore.

(** ** The extent holds every serialization *)

Section ExtentHolds.
Context `{Imports}.
Import BitLengthSet.

(** The running set of a structure keeps a member at least as large as the
    lengths picked so far. *)
Lemma structure_fold_reaches (field_types : list SerializableType) :
  ∀ (running : gset N) (bound : N) (picks : list N),
    (∃ r, r ∈ or_zero running ∧ bound <= r) →
    Forall2 (λ x ft, x ∈ type_bit_length_set ft) picks field_types →
    ∃ r, r ∈ or_zero
               (foldl
                  (λ bls t,
                     let bls :=
                       pad_to_alignment (type_alignment_requirement t) bls in
                     add bls (type_bit_length_set t))
                  running field_types)
         ∧ bound + foldr N.add 0 picks <= r.
Proof.
  induction field_types as [|ft fts IH]; intros running bound picks Hr Hpicks.
  - apply Forall2_nil_inv_r in Hpicks as ->. cbn. destruct Hr as (r & Hr & Hb).
    exists r. split; [done|lia].
  - apply Forall2_cons_inv_r in Hpicks as (x & picks' & Hx & Hpicks & ->).
    cbn [foldl foldr]. destruct Hr as (r & Hr & Hb).
    set (a := type_alignment_requirement ft).
    destruct (IH (add (pad_to_alignment a running) (type_bit_length_set ft))
                (bound + x) picks') as (r' & Hr' & Hb'); [|done|].
    + exists (pad_length a r + x). split.
      * assert (pad_length a r + x
                ∈ add (pad_to_alignment a running) (type_bit_length_set ft)) as Hin.
        { apply elem_of_add. exists (pad_length a r), x. split_and!; [| |done].
          - apply elem_of_or_zero in Hr as [Hr|[-> ->]].
            + apply elem_of_or_zero. left. apply elem_of_pad_to_alignment. eauto.
            + rewrite pad_to_alignment_empty, or_zero_empty, pad_length_0.
              set_solver.
          - done. }
        apply elem_of_or_zero. by left.
      * destruct (pad_length_spec a r) as (_ & Hle & _). lia.
    + exists r'. split; [done|lia].
Qed.

(** X13. The extent of a constructed structure holds every serialization:
    whatever length each field takes from the bit length set of its data
    type, the lengths add up to no more than the extent. *)
Theorem structure_extent_holds_fields (t : CompositeType) (picks : list N) :
  constructed t → class t = StructureTypeClass →
  Forall2 (λ x f, x ∈ type_bit_length_set (attribute_data_type f)) picks (fields t) →
  (Z.of_N (foldr N.add 0%N picks) <= extent t)%Z.
Proof.
  intros Ht Hcls Hpicks. apply constructed_inv in Ht
    as (agg & a & m & Hagg & Ha & Hm & _ & _ & _ & Hmin & _).
  unfold _aggregate_bit_length_sets, aggregate_bit_length_sets_of in Hagg.
  rewrite Hcls in Hagg. injection Hagg as <-.
  destruct (structure_fold_reaches (attribute_data_type <$> fields_of (attributes t))
              ∅ 0 picks) as (r & Hr & Hb).
  - exists 0. rewrite or_zero_empty. split; [set_solver|lia].
  - apply Forall2_fmap_r. exact Hpicks.
  - fold (StructureType_aggregate_bit_length_sets
            (attribute_data_type <$> fields_of (attributes t))) in Hr.
    set (agg := StructureType_aggregate_bit_length_sets _) in *.
    assert (agg ≠ ∅) as Hne.
    { intros He. rewrite He, pad_to_alignment_empty in Hm.
      by apply max_Ok_nonempty in Hm. }
    rewrite or_zero_nonempty in Hr by done.
    apply max_spec in Hm as [_ Hub].
    assert (pad_length a r <= m) as Hle.
    { apply Hub, elem_of_pad_to_alignment. eauto. }
    destruct (pad_length_spec a r) as (_ & Hle' & _). lia.
Qed.

Lemma elem_of_foldl_union (l : list (gset N)) (d : gset N) x :
  x ∈ foldl union d l ↔ x ∈ d ∨ ∃ s, s ∈ l ∧ x ∈ s.
Proof.
  revert d. induction l as [|s l IH]; intros d; cbn [foldl].
  - split; [by left|]. intros [?|(s & Hs & _)]; [done|]. by apply elem_of_nil in Hs.
  - rewrite IH. unfold union. rewrite elem_of_union. split.
    + intros [[?|?]|(s' & Hs' & Hx)]; [by left | right | right].
      * exists s. split; [by left|done].
      * exists s'. split; [by right|done].
    + intros [?|(s' & Hs' & Hx)]; [by left; left|].
      apply elem_of_cons in Hs' as [->|Hs']; [by left; right|].
      right. eauto.
Qed.

(** The aggregate of a union of two variants or more. *)
Lemma union_aggregate_members (field_types : list SerializableType) agg :
  (2 <= length field_types)%nat →
  UnionType_aggregate_bit_length_sets field_types = Ok agg →
  ∃ tag, UnionType_compute_tag_bit_length field_types = Ok tag ∧
    ∀ y, y ∈ agg ↔
      (∃ ft x, ft ∈ field_types ∧ x ∈ type_bit_length_set ft ∧ y = x + tag) ∨
      ((∀ ft, ft ∈ field_types → type_bit_length_set ft = ∅) ∧ y = tag).
Proof.
  intros Hlen. unfold UnionType_aggregate_bit_length_sets.
  destruct field_types as [|t1 [|t2 l]]; [cbn in Hlen; lia..|].
  set (fts := t1 :: t2 :: l) in *. clearbody fts.
  destruct (type_bit_length_set <$> fts) as [|m1 [|m2 ms]] eqn:Hms.
  - apply fmap_nil_inv in Hms. subst. cbn in Hlen. lia.
  - apply (f_equal length) in Hms. rewrite length_fmap in Hms. cbn in Hms. lia.
  - rewrite <- Hms. clear Hms.
    intros Hagg. apply bind_Ok_inv in Hagg as (tag & Htag & [= <-]).
    exists tag. split; [done|]. intros y.
    unfold add_int, of_int. rewrite elem_of_add.
    split.
    + intros (x & h & Hx & ->%elem_of_singleton & ->).
      apply elem_of_or_zero in Hx as [Hx|[He ->]].
      * left. apply elem_of_foldl_union in Hx as [Hx|(s & Hs & Hx)];
          [by apply not_elem_of_empty in Hx|].
        apply list_elem_of_fmap in Hs as (ft & -> & Hft). eauto.
      * right. split; [|done]. intros ft Hft. apply set_eq. intros z.
        split; [|by intros ?%not_elem_of_empty].
        intros Hz. rewrite <- He. apply elem_of_foldl_union. right.
        exists (type_bit_length_set ft). split; [|done].
        apply list_elem_of_fmap. eauto.
    + intros [(ft & x & Hft & Hx & ->)|[Hempty ->]].
      * exists x, tag. split_and!; [|by apply elem_of_singleton|done].
        apply elem_of_or_zero. left. apply elem_of_foldl_union. right.
        exists (type_bit_length_set ft). split; [|done].
        apply list_elem_of_fmap. eauto.
      * exists 0, tag. split_and!; [|by apply elem_of_singleton|done].
        apply elem_of_or_zero. right. split; [|done].
        apply set_eq. intros z. split; [|by intros ?%not_elem_of_empty].
        intros [Hz|(s & Hs & Hz)]%elem_of_foldl_union; [done|].
        apply list_elem_of_fmap in Hs as (ft & -> & Hft).
        by rewrite (Hempty ft Hft) in Hz.
Qed.

Lemma UnionType_init_inv name ver attrs ext fin dep port path par u :
  UnionType_init name ver attrs ext fin dep port path par = Ok u →
  CompositeType_init UnionTypeClass name ver attrs ext fin dep port path par
    = Ok (union_base u) ∧
  (2 <= number_of_variants (union_base u))%nat ∧
  UnionType_compute_tag_bit_length (attribute_data_type <$> fields (union_base u))
    = Ok (bit_length (tag_field_type u)).
Proof.
  unfold UnionType_init. intros Hinit.
  apply bind_Ok_inv in Hinit as (t & Hbase & Hinit).
  apply bind_Ok_inv in Hinit as (? & Hk%raise_if_Ok_inv & Hinit).
  apply bind_Ok_inv in Hinit as (? & _ & Hinit).
  apply bind_Ok_inv in Hinit as (tag & Htag & [= <-]).
  cbn [union_base tag_field_type _tag_field_type bit_length].
  split_and!; [done| |done].
  apply Nat.ltb_ge in Hk. exact Hk.
Qed.

(** X14. The extent of a constructed union holds the tag and any variant:
    the width of the tag plus any length of any variant is no more than the
    extent. *)
Theorem union_extent_holds_variants name ver attrs ext fin dep port path par
    (u : UnionType) (f : Attribute) (x : N) :
  UnionType_init name ver attrs ext fin dep port path par = Ok u →
  f ∈ fields (union_base u) →
  x ∈ type_bit_length_set (attribute_data_type f) →
  (Z.of_N (bit_length (tag_field_type u) + x) <= extent (union_base u))%Z.
Proof.
  intros Hinit Hf Hx. apply UnionType_init_inv in Hinit as (Hbase & Hk & Htag).
  assert (constructed (union_base u)) as Hc by (repeat eexists; exact Hbase).
  apply constructed_inv in Hc as (agg & a & m & Hagg & Ha & Hm & _ & _ & _ & Hmin & _).
  apply CompositeType_init_inv in Hbase as (_ & _ & _ & _ & _ & _ & Ht & _).
  unfold _aggregate_bit_length_sets, aggregate_bit_length_sets_of in Hagg.
  assert (class (union_base u) = UnionTypeClass) as Hcls by (by rewrite Ht).
  rewrite Hcls in Hagg.
  apply union_aggregate_members in Hagg as (tag & Htag' & Hmem);
    [|by rewrite length_fmap].
  unfold fields in Htag. rewrite Htag in Htag'. injection Htag' as <-.
  assert (x + bit_length (tag_field_type u) ∈ agg) as Hin.
  { apply Hmem. left. exists (attribute_data_type f), x. split_and!; [|done..].
    apply list_elem_of_fmap. eauto. }
  apply max_spec in Hm as [_ Hub].
  assert (pad_length a (x + bit_length (tag_field_type u)) <= m) as Hle.
  { apply Hub, elem_of_pad_to_alignment. eauto. }
  destruct (pad_length_spec a (x + bit_length (tag_field_type u))) as (_ & Hle' & _).
  lia.
Qed.

(** X15. The bit length set of a constructed final union holds, for every
    length of every variant, that length plus the width of the tag, padded
    to the alignment requirement of the union, and nothing else; when every
    variant has an empty bit length set, it holds the padded width of the
    tag alone. *)
Theorem final_union_bit_length_set name ver attrs ext dep port path par
    (u : UnionType) :
  UnionType_init name ver attrs ext true dep port path par = Ok u →
  ∃ (a : positive) (s : gset N),
    alignment_requirement (union_base u) = Ok a ∧
    bit_length_set (union_base u) = Ok s ∧
    ∀ y, y ∈ s ↔
      (∃ f x, f ∈ fields (union_base u) ∧
              x ∈ type_bit_length_set (attribute_data_type f) ∧
              y = pad_length a (x + bit_length (tag_field_type u))) ∨
      ((∀ f, f ∈ fields (union_base u) →
             type_bit_length_set (attribute_data_type f) = ∅) ∧
       y = pad_length a (bit_length (tag_field_type u))).
Proof.
  intros Hinit. apply UnionType_init_inv in Hinit as (Hbase & Hk & Htag).
  assert (constructed (union_base u)) as Hc by (repeat eexists; exact Hbase).
  apply constructed_inv in Hc as (agg & a & m & Hagg & Ha & _).
  apply CompositeType_init_inv in Hbase as (_ & _ & _ & _ & _ & _ & Ht & _).
  assert (class (union_base u) = UnionTypeClass) as Hcls by (by rewrite Ht).
  assert (final (union_base u) = true) as Hfin by (unfold final; by rewrite Ht).
  exists a, (pad_to_alignment a agg).
  unfold bit_length_set. rewrite Hfin, Hagg, Ha. cbn [mbind Result_bind].
  split; [done|]. split; [done|].
  unfold _aggregate_bit_length_sets, aggregate_bit_length_sets_of in Hagg.
  rewrite Hcls in Hagg.
  apply union_aggregate_members in Hagg as (tag & Htag' & Hmem);
    [|by rewrite length_fmap].
  unfold fields in Htag. rewrite Htag in Htag'. injection Htag' as <-.
  intros y. rewrite elem_of_pad_to_alignment. split.
  - intros (z & -> & [(ft & x & Hft & Hx & ->)|[Hempty ->]]%Hmem).
    + left. apply list_elem_of_fmap in Hft as (f & -> & Hf). eauto 6.
    + right. split; [|done]. intros f Hf. apply Hempty.
      apply list_elem_of_fmap. eauto.
  - intros [(f & x & Hf & Hx & ->)|[Hempty ->]].
    + eexists. split; [done|]. apply Hmem. left.
      exists (attribute_data_type f), x. split_and!; [|done..].
      apply list_elem_of_fmap. eauto.
    + eexists. split; [done|]. apply Hmem. right. split; [|done].
      intros ft (f & -> & Hf)%list_elem_of_fmap. by apply Hempty.
Qed.

(** X16. The width of the tag never shrinks when variants are added: if the
    tag widths of a list of variants and of a longer list that starts with
    it are both computed, the first is at most the second. *)
Theorem tag_bit_length_monotone (field_types more : list SerializableType) (w w' : N) :
  UnionType_compute_tag_bit_length field_types = Ok w →
  UnionType_compute_tag_bit_length (field_types ++ more) = Ok w' →
  w <= w'.
Proof.
  intros (Hk & -> & _)%compute_tag_bit_length_inv
         (Hk' & -> & _)%compute_tag_bit_length_inv.
  rewrite length_app in *. rewrite fmap_app.
  set (p := 2 ^ N.log2_up (N.max 8 (N.size (N.of_nat (length field_types) - 1)))).
  set (p' := 2 ^ N.log2_up
                 (N.max 8 (N.size (N.of_nat (length field_types + length more) - 1)))).
  set (al := (λ x, N.pos (type_alignment_requirement x)) <$> field_types).
  set (al' := (λ x, N.pos (type_alignment_requirement x)) <$> more).
  assert (p <= p') as Hp.
  { unfold p, p'. apply N.pow_le_mono_r; [done|]. apply N.log2_up_le_mono.
    apply N.max_le_compat_l.
    destruct (size_is_bit_length
                (N.of_nat (length field_types + length more) - 1)) as [Hlt _].
    apply (proj2 (size_is_bit_length (N.of_nat (length field_types) - 1))). lia. }
  destruct (foldl_N_max_spec p al) as (_ & _ & Hw).
  destruct (foldl_N_max_spec p' (al ++ al')) as (Hp' & Hall & _).
  destruct Hw as [->|Hin]; [lia|].
  rewrite Forall_forall in Hall. apply Hall. apply elem_of_app. by left.
Qed.

End ExtentHolds.

(** ** Fields with offsets *)

Section OffsetFacts.
Context `{Imports}.
Import BitLengthSet.

(** The step of the running sum of a structure, over data types. *)
#[local] Abbreviation step :=
  (λ bls t,
     let bls := pad_to_alignment (type_alignment_requirement t) bls in
     add bls (type_bit_length_set t)).

Lemma add_nonempty (a b : gset N) : b ≠ ∅ → add a b ≠ ∅.
Proof.
  intros Hb. rewrite add_pointwise_sum. apply pointwise_sum_nonempty; [|done].
  unfold or_zero. case_decide; set_solver.
Qed.

Lemma structure_offsets_fields base fs :
  (structure_offsets base fs).*1 = fs.
Proof.
  revert base. induction fs as [|f fs IH]; intros base; [done|].
  cbn [structure_offsets fmap list_fmap fst]. f_equal. apply IH.
Qed.

(** The offset of each field is the running sum over the fields before it,
    padded to the alignment requirement of the field. *)
Lemma structure_offsets_lookup fs : ∀ base i f off,
  structure_offsets base fs !! i = Some (f, off) →
  fs !! i = Some f ∧
  off = pad_to_alignment (type_alignment_requirement (attribute_data_type f))
          (foldl step base (attribute_data_type <$> take i fs)).
Proof.
  induction fs as [|f0 fs IH]; intros base i f off; [done|].
  destruct i as [|i]; cbn [structure_offsets lookup list_lookup].
  - intros [= <- <-]. done.
  - intros Hi. apply IH in Hi as [Hf ->]. split; [done|].
    by rewrite firstn_cons, fmap_cons.
Qed.

(** X17. Exhausting [iterate_fields_with_offsets] of a constructed
    structure, from any base offset, yields the fields of the structure in
    their order, each with an offset whose every member is a multiple of the
    alignment requirement of the field; when no field has an empty bit length
    set, no offset is empty. *)
Theorem structure_iterate_yields_aligned_offsets (t : CompositeType)
    (base_offset : option (gset N)) :
  constructed t →
  ∃ yielded,
    StructureType_iterate_fields_with_offsets t base_offset = Ok yielded ∧
    yielded.*1 = fields t ∧
    (∀ f off, (f, off) ∈ yielded →
       ∀ x, x ∈ off →
         (N.pos (type_alignment_requirement (attribute_data_type f)) | x)) ∧
    (Forall (λ f, type_bit_length_set (attribute_data_type f) ≠ ∅) (fields t) →
     ∀ f off, (f, off) ∈ yielded → off ≠ ∅).
Proof.
  intros Ht. apply constructed_inv in Ht as (_ & a & _ & _ & Ha & _).
  unfold StructureType_iterate_fields_with_offsets. rewrite Ha.
  cbn [mbind Result_bind]. eexists. split; [done|].
  split; [apply structure_offsets_fields|].
  set (base := pad_to_alignment a (base_offset_or_zero base_offset)).
  assert (base ≠ ∅) as Hbase.
  { apply pad_to_alignment_nonempty. unfold base_offset_or_zero, of_int.
    destruct base_offset as [s|]; [case_decide|]; set_solver. }
  clearbody base. split.
  - clear Hbase. revert base.
    induction (fields t) as [|f0 fs IH]; intros base f off Hin.
    + by apply elem_of_nil in Hin.
    + cbn [structure_offsets] in Hin. apply elem_of_cons in Hin as [Heq|Hin].
      * injection Heq as -> ->.
        intros x (x0 & -> & _)%elem_of_pad_to_alignment. apply pad_length_spec.
      * eapply IH. exact Hin.
  - revert base Hbase.
    induction (fields t) as [|f0 fs IH]; intros base Hbase Hall f off Hin.
    + by apply elem_of_nil in Hin.
    + apply Forall_cons in Hall as [Hf0 Hfs].
      cbn [structure_offsets] in Hin. apply elem_of_cons in Hin as [Heq|Hin].
      * injection Heq as -> ->. by apply pad_to_alignment_nonempty.
      * eapply (IH _ (add_nonempty _ _ Hf0) Hfs). exact Hin.
Qed.

(** X18. With no base offset, the offset that a constructed structure
    yields for its first field is [{0}], and the offset of any later field is
    the aggregate bit length set of the fields before it, padded to the
    alignment requirement of the field; the offset of the last field summed
    with the bit length set of the last field is the aggregate bit length set
    of the structure. *)
Theorem structure_iterate_round_trip (t : CompositeType) :
  constructed t → class t = StructureTypeClass →
  ∃ yielded,
    StructureType_iterate_fields_with_offsets t None = Ok yielded ∧
    (∀ f off, yielded !! 0%nat = Some (f, off) → off = {[ 0 ]}) ∧
    (∀ i f off, yielded !! S i = Some (f, off) →
       off = pad_to_alignment (type_alignment_requirement (attribute_data_type f))
               (StructureType_aggregate_bit_length_sets
                  (attribute_data_type <$> take (S i) (fields t)))) ∧
    (∀ f off, last yielded = Some (f, off) →
       _aggregate_bit_length_sets t
       = Ok (add off (type_bit_length_set (attribute_data_type f)))).
Proof.
  intros Ht Hcls. apply constructed_inv in Ht as (agg & a & _ & Hagg & Ha & _).
  unfold StructureType_iterate_fields_with_offsets. rewrite Ha.
  cbn [mbind Result_bind base_offset_or_zero]. eexists. split; [done|].
  unfold of_int. rewrite pad_to_alignment_zero.
  assert (∀ l : list SerializableType, l ≠ [] →
            foldl step {[ 0 ]} l = StructureType_aggregate_bit_length_sets l)
    as Hfold.
  { intros l Hl. rewrite StructureType_aggregate_fold by done. done. }
  split_and!.
  - intros f off Hlook. apply structure_offsets_lookup in Hlook as [_ ->].
    cbn [take fmap list_fmap foldl]. apply pad_to_alignment_zero.
  - intros i f off Hlook. apply structure_offsets_lookup in Hlook as [Hf ->].
    rewrite Hfold; [done|].
    destruct (fields t); [done|]. by cbn.
  - intros f off Hlast. rewrite last_lookup in Hlast.
    assert (length (structure_offsets {[ 0 ]} (fields t)) = length (fields t))
      as Hlen by (by rewrite <- (structure_offsets_fields {[ 0 ]} (fields t)) at 2;
                  rewrite length_fmap).
    rewrite Hlen in Hlast.
    apply structure_offsets_lookup in Hlast as [Hf ->].
    unfold _aggregate_bit_length_sets, aggregate_bit_length_sets_of.
    rewrite Hcls. f_equal. fold (fields t).
    assert (fields t ≠ []) as Hne by (intros He; by rewrite He in Hf).
    rewrite <- Hfold by (by destruct (fields t)).
    assert (fields t = take (pred (length (fields t))) (fields t) ++ [f]) as Hsplit.
    { rewrite <- (take_drop (pred (length (fields t))) (fields t)) at 1.
      f_equal. apply list_eq. intros [|j].
      - rewrite lookup_drop, Nat.add_0_r. done.
      - rewrite lookup_drop. cbn. apply lookup_ge_None_2.
        destruct (fields t); [done|]. cbn. lia. }
    rewrite Hsplit at 1. rewrite fmap_app, foldl_app. done.
Qed.

End OffsetFacts.

(** ** Fields of a union *)

Section UnionOffsetFacts.
Context `{Imports}.
Import BitLengthSet.

Lemma union_offsets_inv base fs yielded :
  union_offsets base fs = Ok yielded →
  yielded = (λ f, (f, base)) <$> fs ∧
  Forall (λ f, is_aligned_at (type_alignment_requirement (attribute_data_type f))
                 base = true) fs.
Proof.
  revert yielded. induction fs as [|f fs IH]; intros yielded; cbn [union_offsets].
  - intros [= <-]. by split.
  - intros Hy. apply bind_Ok_inv in Hy as (? & Ha%py_assert_Ok_inv & Hy).
    apply bind_Ok_inv in Hy as (rest & Hrest & [= <-]).
    destruct (IH _ Hrest) as [-> Hall]. split; [done|]. by constructor.
Qed.

Lemma union_offsets_aligned base fs :
  Forall (λ f, is_aligned_at (type_alignment_requirement (attribute_data_type f))
                 base = true) fs →
  union_offsets base fs = Ok ((λ f, (f, base)) <$> fs).
Proof.
  induction 1 as [|f fs Hf _ IH]; [done|].
  cbn [union_offsets]. rewrite Hf. cbn [py_assert mbind Result_bind].
  by rewrite IH.
Qed.

(** X19. Whenever exhausting [iterate_fields_with_offsets] of a constructed
    union returns, it has yielded the fields of the union in their order, all
    with one and the same offset: the base offset, or [{0}] without one,
    padded to the alignment requirement of the union, plus the width of the
    tag. *)
Theorem union_iterate_same_offset name ver attrs ext fin dep port path par
    (u : UnionType) (base_offset : option (gset N)) yielded :
  UnionType_init name ver attrs ext fin dep port path par = Ok u →
  UnionType_iterate_fields_with_offsets u base_offset = Ok yielded →
  ∃ a : positive,
    alignment_requirement (union_base u) = Ok a ∧
    yielded.*1 = fields (union_base u) ∧
    ∀ f off, (f, off) ∈ yielded →
      ∀ y, y ∈ off ↔
        ∃ x, x ∈ base_offset_or_zero base_offset ∧
             y = pad_length a x + bit_length (tag_field_type u).
Proof.
  intros Hinit Hiter. apply UnionType_init_inv in Hinit as (Hbase & _ & _).
  assert (constructed (union_base u)) as Hc by (repeat eexists; exact Hbase).
  apply constructed_inv in Hc as (_ & a & _ & _ & Ha & _).
  exists a. split; [done|].
  unfold UnionType_iterate_fields_with_offsets in Hiter. rewrite Ha in Hiter.
  cbn [mbind Result_bind] in Hiter.
  apply union_offsets_inv in Hiter as [-> _]. split.
  - rewrite <- list_fmap_compose. apply list_fmap_id.
  - intros f off (f' & Heq & _)%list_elem_of_fmap y. injection Heq as -> ->.
    unfold add_int, of_int. rewrite elem_of_add.
    rewrite or_zero_nonempty.
    2:{ apply pad_to_alignment_nonempty. unfold base_offset_or_zero, of_int.
        destruct base_offset as [s|]; [case_decide|]; set_solver. }
    split.
    + intros (x & h & (x0 & -> & Hx0)%elem_of_pad_to_alignment
              & ->%elem_of_singleton & ->). eauto.
    + intros (x & Hx & ->). eexists _, _.
      split; [|split; [by apply elem_of_singleton|done]].
      apply elem_of_pad_to_alignment. eauto.
Qed.

Lemma power_of_two_divide (p q : N) :
  is_power_of_two p → is_power_of_two q → p <= q → (p | q).
Proof.
  intros [i ->] [j ->] Hle.
  assert (i <= j) as Hij by (apply (N.pow_le_mono_r_iff 2); [lia | done]).
  exists (2 ^ (j - i)). rewrite <- N.pow_add_r. f_equal. lia.
Qed.

(** X20. Exhausting [iterate_fields_with_offsets] of a constructed union
    whose variants all have a power of two for their alignment requirement
    returns: no assertion on the alignment of the offset fails. *)
Theorem union_iterate_returns name ver attrs ext fin dep port path par
    (u : UnionType) (base_offset : option (gset N)) :
  UnionType_init name ver attrs ext fin dep port path par = Ok u →
  Forall (λ f, is_power_of_two
                 (N.pos (type_alignment_requirement (attribute_data_type f))))
    (fields (union_base u)) →
  ∃ yielded, UnionType_iterate_fields_with_offsets u base_offset = Ok yielded.
Proof.
  intros Hinit Hpow. apply UnionType_init_inv in Hinit as (Hbase & _ & Htag).
  assert (constructed (union_base u)) as Hc by (repeat eexists; exact Hbase).
  apply constructed_inv in Hc as (_ & a & _ & _ & Ha & _).
  unfold UnionType_iterate_fields_with_offsets. rewrite Ha.
  cbn [mbind Result_bind]. eexists. apply union_offsets_aligned.
  (* the alignment requirement of the union and the tag are powers of two
     that no alignment requirement of a variant exceeds *)
  unfold alignment_requirement in Ha.
  apply alignment_requirement_of_Ok in Ha as [_ Ha].
  destruct (largest_of_spec BITS_PER_BYTE (alignments (fields_of (attributes (union_base u)))))
    as (_ & Hle_a & Hin_a).
  rewrite <- Ha in Hle_a, Hin_a. fold (fields (union_base u)) in Hle_a, Hin_a.
  assert (is_power_of_two (N.pos a)) as Hpa.
  { destruct Hin_a as [->|Hin]; [by exists 3|].
    apply list_elem_of_fmap in Hin as (f & -> & Hf).
    rewrite Forall_forall in Hpow. by apply Hpow. }
  apply compute_tag_bit_length_inv in Htag as (_ & Hw & Hwin).
  assert (is_power_of_two (bit_length (tag_field_type u))) as Hptag.
  { apply elem_of_tag_widths in Hwin as [Hv | [Hv | [Hv | Hv]]]; rewrite Hv;
      [by exists 3 | by exists 4 | by exists 5 | by exists 6]. }
  set (tag := bit_length (tag_field_type u)) in *.
  destruct (foldl_N_max_spec
              (2 ^ N.log2_up (N.max 8
                 (N.size (N.of_nat (length (attribute_data_type <$>
                                              fields (union_base u))) - 1))))
              ((λ x, N.pos (type_alignment_requirement x)) <$>
                 (attribute_data_type <$> fields (union_base u))))
    as (_ & Hle_tag & _).
  rewrite <- Hw in Hle_tag.
  apply Forall_forall. intros f Hf.
  set (af := type_alignment_requirement (attribute_data_type f)).
  assert (N.pos af <= N.pos a) as Hfa.
  { rewrite Forall_forall in Hle_a.
    assert (af <= a)%positive; [|lia].
    apply Hle_a. apply list_elem_of_fmap. eauto. }
  assert (N.pos af <= tag) as Hft.
  { rewrite Forall_forall in Hle_tag. apply Hle_tag.
    apply list_elem_of_fmap. exists (attribute_data_type f). split; [done|].
    apply list_elem_of_fmap. eauto. }
  assert (is_power_of_two (N.pos af)) as Hpf
    by (rewrite Forall_forall in Hpow; by apply Hpow).
  unfold is_aligned_at. apply bool_decide_eq_true. intros y Hy.
  unfold add_int, of_int in Hy. apply elem_of_add in Hy as (x & h & Hx & Hh & ->).
  apply elem_of_singleton in Hh as ->.
  rewrite or_zero_nonempty in Hx.
  2:{ apply pad_to_alignment_nonempty. unfold base_offset_or_zero, of_int.
      destruct base_offset as [s|]; [case_decide|]; set_solver. }
  apply elem_of_pad_to_alignment in Hx as (x0 & -> & _).
  apply N.Lcm0.mod_divide. apply N.divide_add_r.
  - etrans; [by apply (power_of_two_divide (N.pos af) (N.pos a))|].
    apply pad_length_spec.
  - by apply power_of_two_divide.
Qed.

(** X21. A union constructed from a list of attributes has no padding
    among them: every attribute has a name and a data type other than void,
    so that the fields of the union are its fields except padding. *)
Theorem union_of_list_has_no_padding name ver (l : list Attribute) ext fin dep
    port path par (u : UnionType) :
  UnionType_init name ver (Iterable.Sequence l) ext fin dep port path par = Ok u →
  attributes (union_base u) = l ∧
  Forall (λ a, is_PaddingField a = false ∧ attribute_name a ≠ [] ∧
               is_VoidType (attribute_data_type a) = false) l ∧
  fields (union_base u) = fields_except_padding (union_base u).
Proof.
  unfold UnionType_init. intros Hinit.
  apply bind_Ok_inv in Hinit as (t & Hbase & Hinit).
  apply bind_Ok_inv in Hinit as (? & _ & Hinit).
  apply bind_Ok_inv in Hinit as (? & Hloop%raise_if_Ok_inv & Hinit).
  apply bind_Ok_inv in Hinit as (tag & _ & [= <-]).
  cbn [union_base Iterable.exhaust Iterable.items] in *.
  apply CompositeType_init_inv in Hbase as (_ & _ & _ & _ & _ & _ & Ht & _).
  assert (attributes t = l) as Hattrs by (unfold attributes; by rewrite Ht).
  assert (Forall (λ a, is_PaddingField a = false ∧ attribute_name a ≠ [] ∧
                       is_VoidType (attribute_data_type a) = false) l) as Hall.
  { apply Forall_forall. intros a Ha.
    destruct (is_PaddingField a || negb (Str.truthy (attribute_name a))
              || is_VoidType (attribute_data_type a)) eqn:Hbad.
    - assert (existsb
                (λ a, is_PaddingField a || negb (Str.truthy (attribute_name a))
                      || is_VoidType (attribute_data_type a)) l = true) as Hex.
      { apply existsb_exists. exists a. split; [by apply list_elem_of_In|done]. }
      congruence.
    - apply orb_false_iff in Hbad as [Hbad Hvoid].
      apply orb_false_iff in Hbad as [Hpad Hname].
      split_and!; [done| |done]. intros Hn. by rewrite Hn in Hname. }
  split_and!; [done..|].
  unfold fields, fields_except_padding, fields_of, fields_except_padding_of.
  rewrite Hattrs. clear -Hall.
  induction Hall as [|a l (Hpad & _ & _) _ IH]; [done|].
  cbn [List.filter]. rewrite Hpad, andb_true_r. by rewrite IH.
Qed.

End UnionOffsetFacts.

(** ** Types without fields *)

Section NoFieldFacts.
Context `{Imports}.

(** X22. No composite type is constructed from attributes without a field:
    [max(self.BITS_PER_BYTE, *())] in [alignment_requirement] raises, so such
    a construction always raises, and every constructed type has a field. *)
Theorem constructed_has_field :
  (∀ t, constructed t → fields t ≠ []) ∧
  (∀ cls name ver attrs ext fin dep port path par,
     fields_of (Iterable.items attrs) = [] →
     ∃ e, CompositeType_init cls name ver attrs ext fin dep port path par
          = Raise e).
Proof.
  split.
  - intros t Ht. apply constructed_inv in Ht as (_ & a & _ & _ & Ha & _).
    unfold alignment_requirement in Ha.
    by apply alignment_requirement_of_Ok in Ha as [Hne _].
  - intros cls name ver attrs ext fin dep port path par Hnil.
    destruct (CompositeType_init cls name ver attrs ext fin dep port path par)
      as [t|e] eqn:Hinit; [|by eexists].
    apply CompositeType_init_inv in Hinit as (_ & a & _ & _ & Ha & _).
    by apply alignment_requirement_of_Ok in Ha as [Hne _].
Qed.

End NoFieldFacts.

(** ** The further statements at the sample values *)

Section MoreExamples.
#[local] Existing Instance sample_imports.
Import BitLengthSet.

Ltac construct_mixed :=
  exists StructureTypeClass, (Str.lit " ns.sub.T "), version_0_1,
         (Iterable.Sequence mixed_attributes), None, true, false, (Some 100%Z),
         [], None;
  vm_compute; reflexivity.

Ltac construct_sample cls fin :=
  exists cls, (Str.lit "a.A"), version_0_1, (Iterable.Sequence two_fields),
         None, fin, false, None, [], None;
  vm_compute; reflexivity.

Lemma set_error_location_settles_witness :
  ParseError.truthy_path (Some (Str.lit "a.uavcan")) = true ∧
  ParseError.truthy_line (Some 3%Z) = true ∧
  ParseError.set_error_location_if_unknown
    (ParseError.set_error_location_if_unknown
       (ParseError.__init__ (Str.lit "bad") None None)
       (Some (Str.lit "a.uavcan")) (Some 3%Z))
    (Some (Str.lit "b.uavcan")) (Some 4%Z)
  = ParseError.set_error_location_if_unknown
      (ParseError.__init__ (Str.lit "bad") None None)
      (Some (Str.lit "a.uavcan")) (Some 3%Z).
Proof.
  split; [reflexivity|]. split; [reflexivity|].
  exact (proj1 (set_error_location_settles
                  (ParseError.__init__ (Str.lit "bad") None None)
                  (Some (Str.lit "a.uavcan")) (Some (Str.lit "b.uavcan"))
                  (Some 3%Z) (Some 4%Z)) eq_refl eq_refl).
Defined.

Lemma ParseError_str_location_witness :
  (ParseError.truthy_path
     (ParseError.path (ParseError.__init__ (Str.lit "bad") None (Some 3%Z))) = false ∧
   ParseError_str (ParseError.__init__ (Str.lit "bad") None (Some 3%Z))
   = ParseError.text (ParseError.__init__ (Str.lit "bad") None (Some 3%Z))) ∧
  (Str.lit "a.uavcan" ≠ [] ∧ 3%Z ≠ 0%Z ∧
   ParseError_str
     (ParseError.set_error_location_if_unknown
        (ParseError.__init__ (Str.lit "bad") None None)
        (Some (Str.lit "a.uavcan")) (Some 3%Z))
   = Str.lit "a.uavcan" ++ Str.lit ":" ++ format_d 3 ++ Str.lit ": " ++ Str.lit "bad").
Proof.
  assert (Str.lit "a.uavcan" ≠ []) as Hp by (vm_compute; discriminate).
  assert (3%Z ≠ 0%Z) as Hl by discriminate.
  destruct ParseError_str_location as (Hnopath & Hfull & _).
  split.
  - split; [reflexivity|].
    exact (Hnopath (ParseError.__init__ (Str.lit "bad") None (Some 3%Z)) eq_refl).
  - split; [exact Hp|]. split; [exact Hl|].
    exact (Hfull (Str.lit "bad") (Str.lit "a.uavcan") 3%Z Hp Hl).
Defined.

Lemma name_decomposition_witness :
  constructed sample_mixed_structure ∧
  ∃ short root : str,
    short_name sample_mixed_structure = Some short ∧
    root_namespace sample_mixed_structure = Some root ∧
    (2 <= length (name_components sample_mixed_structure))%nat ∧
    full_name sample_mixed_structure
      = full_namespace sample_mixed_structure ++ Str.lit "." ++ short ∧
    (∃ rest, full_name sample_mixed_structure = root ++ Str.lit "." ++ rest) ∧
    Str.contains NAME_COMPONENT_SEPARATOR short = false ∧
    Str.contains NAME_COMPONENT_SEPARATOR root = false.
Proof.
  assert (constructed sample_mixed_structure) as Hc by construct_mixed.
  split; [exact Hc|]. exact (name_decomposition sample_mixed_structure Hc).
Defined.

Lemma constructed_name_valid_witness :
  constructed sample_mixed_structure ∧
  full_name sample_mixed_structure ≠ [] ∧
  Forall (λ component, check_name component = true)
    (name_components sample_mixed_structure) ∧
  (parent_service sample_mixed_structure = None →
   (length (full_name sample_mixed_structure) <= 50)%nat) ∧
  (∀ ps, parent_service sample_mixed_structure = Some ps →
     (Str.endswith (full_name sample_mixed_structure) (Str.lit ".Request") = true ∨
      Str.endswith (full_name sample_mixed_structure) (Str.lit ".Response") = true) ∧
     class_of ps = ServiceTypeClass).
Proof.
  assert (constructed sample_mixed_structure) as Hc by construct_mixed.
  split; [exact Hc|]. exact (constructed_name_valid sample_mixed_structure Hc).
Defined.

Lemma constructed_version_and_port_valid_witness :
  (constructed sample_mixed_structure ∧
   (0 <= major (version sample_mixed_structure) <= 255)%Z ∧
   (0 <= minor (version sample_mixed_structure) <= 255)%Z ∧
   (major (version sample_mixed_structure), minor (version sample_mixed_structure))
     ≠ (0%Z, 0%Z) ∧
   (∀ port_id, fixed_port_id sample_mixed_structure = Some port_id →
      has_fixed_port_id sample_mixed_structure = true ∧
      (0 <= port_id)%Z ∧
      (class sample_mixed_structure ≠ ServiceTypeClass →
       (port_id <= MAX_SUBJECT_ID)%Z))) ∧
  (passes_checks_before_port_id (Str.lit "ns.S") version_0_1
     (Iterable.Sequence two_fields) None ∧
   ¬ (0 <= 512 <= max_port_id ServiceTypeClass)%Z ∧
   (0 <= 512 <= max_port_id StructureTypeClass)%Z ∧
   CompositeType_init ServiceTypeClass (Str.lit "ns.S") version_0_1
     (Iterable.Sequence two_fields) None true false (Some 512%Z) [] None
   = Raise InvalidFixedPortIDError).
Proof.
  assert (constructed sample_mixed_structure) as Hc by construct_mixed.
  assert (passes_checks_before_port_id (Str.lit "ns.S") version_0_1
            (Iterable.Sequence two_fields) None) as Hpre.
  { split; [intros ps Hps; discriminate Hps|].
    split; [vm_compute; reflexivity|]. split; [vm_compute; reflexivity|].
    split; [intros _; vm_compute; lia|]. split; [vm_compute; reflexivity|].
    split; [vm_compute; intuition discriminate|]. vm_compute; reflexivity. }
  assert (¬ (0 <= 512 <= max_port_id ServiceTypeClass)%Z) as Hport
    by (vm_compute; intros [_ Hle]; apply Hle; reflexivity).
  destruct constructed_version_and_port_valid as [Hvalid Hraise].
  split.
  - split; [exact Hc|]. exact (Hvalid sample_mixed_structure Hc).
  - split; [exact Hpre|]. split; [exact Hport|].
    split; [vm_compute; split; discriminate|].
    exact (Hraise ServiceTypeClass (Str.lit "ns.S") version_0_1
             (Iterable.Sequence two_fields) None true false 512%Z [] None
             Hpre Hport).
Defined.

Lemma constructed_deprecation_consistent_witness :
  constructed sample_mixed_structure ∧
  deprecated sample_mixed_structure = false ∧
  Forall (λ a, is_deprecated_composite (attribute_data_type a) = false)
    (attributes sample_mixed_structure).
Proof.
  assert (constructed sample_mixed_structure) as Hc by construct_mixed.
  split; [exact Hc|]. split; [reflexivity|].
  exact (constructed_deprecation_consistent sample_mixed_structure Hc eq_refl).
Defined.

Lemma getitem_finds_named_attributes_witness :
  constructed sample_mixed_structure ∧
  Constant uint16 (Str.lit "A") ∈ attributes sample_mixed_structure ∧
  is_PaddingField (Constant uint16 (Str.lit "A")) = false ∧
  attribute_name (Constant uint16 (Str.lit "A")) ≠ [] ∧
  getitem sample_mixed_structure (attribute_name (Constant uint16 (Str.lit "A")))
    = Some (Constant uint16 (Str.lit "A")).
Proof.
  assert (constructed sample_mixed_structure) as Hc by construct_mixed.
  assert (Constant uint16 (Str.lit "A") ∈ attributes sample_mixed_structure) as Hin
    by (unfold attributes, sample_mixed_structure, mixed_attributes;
        cbn [_attributes]; do 3 (apply list_elem_of_further);
        apply list_elem_of_here).
  assert (attribute_name (Constant uint16 (Str.lit "A")) ≠ []) as Hne
    by (vm_compute; discriminate).
  split; [exact Hc|]. split; [exact Hin|]. split; [reflexivity|]. split; [exact Hne|].
  exact (proj2 (getitem_finds_named_attributes sample_mixed_structure Hc)
           (Constant uint16 (Str.lit "A")) Hin eq_refl Hne).
Defined.

Lemma getitem_KeyError_witness :
  (getitem sample_mixed_structure (Str.lit "b") = Some (Field int16 (Str.lit "b")) ∧
   Field int16 (Str.lit "b") ∈ attributes sample_mixed_structure ∧
   is_PaddingField (Field int16 (Str.lit "b")) = false ∧
   attribute_name (Field int16 (Str.lit "b")) = Str.lit "b") ∧
  (Forall (λ a, is_PaddingField a = false → attribute_name a ≠ [])
     (attributes sample_mixed_structure) ∧
   getitem sample_mixed_structure [] = None).
Proof.
  assert (getitem sample_mixed_structure (Str.lit "b")
          = Some (Field int16 (Str.lit "b"))) as Hb by (vm_compute; reflexivity).
  assert (Forall (λ a, is_PaddingField a = false → attribute_name a ≠ [])
            (attributes sample_mixed_structure)) as Hall
    by (unfold attributes, sample_mixed_structure, mixed_attributes;
        cbn [_attributes]; repeat constructor; vm_compute; discriminate).
  destruct (getitem_KeyError sample_mixed_structure (Str.lit "b")) as (Hfound & _ & _).
  destruct (getitem_KeyError sample_mixed_structure []) as (_ & _ & Hpadding).
  split.
  - split; [exact Hb|]. exact (Hfound _ Hb).
  - split; [exact Hall|]. exact (Hpadding Hall).
Defined.

Lemma default_extent_witness :
  CompositeType_init StructureTypeClass (Str.lit "a.A") version_0_1
    (Iterable.Sequence two_fields) None false false None [] None
    = Ok sample_delimited_structure ∧
  ∃ agg a largest,
    _aggregate_bit_length_sets sample_delimited_structure = Ok agg ∧
    alignment_requirement sample_delimited_structure = Ok a ∧
    max agg = Ok largest ∧
    extent sample_delimited_structure = Z.of_N (pad_length a (2 * largest)) ∧
    (Z.of_N (pad_length a largest) <= extent sample_delimited_structure
       <= 2 * Z.of_N (pad_length a largest))%Z.
Proof.
  assert (CompositeType_init StructureTypeClass (Str.lit "a.A") version_0_1
            (Iterable.Sequence two_fields) None false false None [] None
          = Ok sample_delimited_structure) as Hs by (vm_compute; reflexivity).
  split; [exact Hs|].
  exact (default_extent StructureTypeClass (Str.lit "a.A") version_0_1
           (Iterable.Sequence two_fields) false None [] None
           sample_delimited_structure Hs).
Defined.

Lemma explicit_extent_accepted_witness :
  CompositeType_init StructureTypeClass (Str.lit "a.A") version_0_1
    (Iterable.Sequence two_fields) None false false None [] None
    = Ok sample_delimited_structure ∧
  ∃ agg a minimal,
    _aggregate_bit_length_sets sample_delimited_structure = Ok agg ∧
    alignment_requirement sample_delimited_structure = Ok a ∧
    max (pad_to_alignment a agg) = Ok minimal ∧
    ∀ e : Z,
      ((Z.pos a | e)%Z → (Z.of_N minimal <= e)%Z →
       CompositeType_init StructureTypeClass (Str.lit "a.A") version_0_1
         (Iterable.Sequence two_fields) (Some e) false false None [] None
       = Ok (mkCompositeType (class sample_delimited_structure)
               (_name sample_delimited_structure)
               (_version sample_delimited_structure)
               (_attributes sample_delimited_structure)
               (_final sample_delimited_structure)
               (_deprecated sample_delimited_structure)
               (_fixed_port_id sample_delimited_structure)
               (_source_file_path sample_delimited_structure)
               (_parent_service sample_delimited_structure) e)) ∧
      (¬ ((Z.pos a | e)%Z ∧ (Z.of_N minimal <= e)%Z) →
       CompositeType_init StructureTypeClass (Str.lit "a.A") version_0_1
         (Iterable.Sequence two_fields) (Some e) false false None [] None
       = Raise InvalidExtentError).
Proof.
  assert (CompositeType_init StructureTypeClass (Str.lit "a.A") version_0_1
            (Iterable.Sequence two_fields) None false false None [] None
          = Ok sample_delimited_structure) as Hs by (vm_compute; reflexivity).
  split; [exact Hs|].
  exact (explicit_extent_accepted StructureTypeClass (Str.lit "a.A") version_0_1
           (Iterable.Sequence two_fields) false None [] None
           sample_delimited_structure Hs).
Defined.

Lemma bit_length_set_bounds_witness :
  constructed sample_delimited_structure ∧
  ∃ (a : positive) (s : gset N),
    alignment_requirement sample_delimited_structure = Ok a ∧
    bit_length_set sample_delimited_structure = Ok s ∧
    s ≠ ∅ ∧
    (final sample_delimited_structure = true →
     max s = Ok (Z.to_N (extent sample_delimited_structure))) ∧
    (final sample_delimited_structure = false →
       max s = Ok (Z.to_N (extent sample_delimited_structure) + N.max 32 (N.pos a)) ∧
       N.max 32 (N.pos a) ∈ s ∧
       ∀ x, x ∈ s → N.max 32 (N.pos a) <= x).
Proof.
  assert (constructed sample_delimited_structure) as Hc
    by construct_sample StructureTypeClass false.
  split; [exact Hc|]. exact (bit_length_set_bounds sample_delimited_structure Hc).
Defined.

Lemma bit_length_set_aligned_witness :
  constructed sample_structure ∧
  ∃ (a : positive) (s : gset N),
    alignment_requirement sample_structure = Ok a ∧
    bit_length_set sample_structure = Ok s ∧
    (final sample_structure = true → ∀ x, x ∈ s → (N.pos a | x)) ∧
    (final sample_structure = false →
       (∀ x, x ∈ s → (N.pos a | x)) ↔ ((N.pos a | 32) ∨ 32 <= N.pos a)).
Proof.
  assert (constructed sample_structure) as Hc
    by construct_sample StructureTypeClass true.
  split; [exact Hc|]. exact (bit_length_set_aligned sample_structure Hc).
Defined.

Lemma structure_extent_holds_fields_witness :
  constructed sample_structure ∧
  class sample_structure = StructureTypeClass ∧
  Forall2 (λ x f, x ∈ type_bit_length_set (attribute_data_type f)) [16; 16]
    (fields sample_structure) ∧
  (Z.of_N (foldr N.add 0%N [16%N; 16%N]) <= extent sample_structure)%Z.
Proof.
  assert (constructed sample_structure) as Hc
    by construct_sample StructureTypeClass true.
  assert (Forall2 (λ x f, x ∈ type_bit_length_set (attribute_data_type f)) [16; 16]
            (fields sample_structure)) as Hpicks
    by (repeat constructor; apply bool_decide_eq_true; vm_compute; reflexivity).
  split; [exact Hc|]. split; [reflexivity|]. split; [exact Hpicks|].
  exact (structure_extent_holds_fields sample_structure [16; 16] Hc eq_refl Hpicks).
Defined.

Lemma union_extent_holds_variants_witness :
  UnionType_init (Str.lit "a.A") version_0_1 (Iterable.Sequence two_fields) None
    true false None [] None = Ok sample_union ∧
  Field int16 (Str.lit "_1") ∈ fields (union_base sample_union) ∧
  16 ∈ type_bit_length_set (attribute_data_type (Field int16 (Str.lit "_1"))) ∧
  (Z.of_N (bit_length (tag_field_type sample_union) + 16)
   <= extent (union_base sample_union))%Z.
Proof.
  assert (UnionType_init (Str.lit "a.A") version_0_1
            (Iterable.Sequence two_fields) None true false None [] None
          = Ok sample_union) as Hu by (vm_compute; reflexivity).
  assert (Field int16 (Str.lit "_1") ∈ fields (union_base sample_union)) as Hf
    by (unfold fields, fields_of, attributes, sample_union, two_fields;
        cbn [union_base _attributes List.filter is_Field];
        apply list_elem_of_further, list_elem_of_here).
  assert (16 ∈ type_bit_length_set (attribute_data_type (Field int16 (Str.lit "_1"))))
    as Hx by (vm_compute; reflexivity).
  split; [exact Hu|]. split; [exact Hf|]. split; [exact Hx|].
  exact (union_extent_holds_variants (Str.lit "a.A") version_0_1
           (Iterable.Sequence two_fields) None true false None [] None sample_union
           (Field int16 (Str.lit "_1")) 16 Hu Hf Hx).
Defined.

Lemma final_union_bit_length_set_witness :
  UnionType_init (Str.lit "a.A") version_0_1 (Iterable.Sequence two_fields) None
    true false None [] None = Ok sample_union ∧
  ∃ (a : positive) (s : gset N),
    alignment_requirement (union_base sample_union) = Ok a ∧
    bit_length_set (union_base sample_union) = Ok s ∧
    ∀ y, y ∈ s ↔
      (∃ f x, f ∈ fields (union_base sample_union) ∧
              x ∈ type_bit_length_set (attribute_data_type f) ∧
              y = pad_length a (x + bit_length (tag_field_type sample_union))) ∨
      ((∀ f, f ∈ fields (union_base sample_union) →
             type_bit_length_set (attribute_data_type f) = ∅) ∧
       y = pad_length a (bit_length (tag_field_type sample_union))).
Proof.
  assert (UnionType_init (Str.lit "a.A") version_0_1
            (Iterable.Sequence two_fields) None true false None [] None
          = Ok sample_union) as Hu by (vm_compute; reflexivity).
  split; [exact Hu|].
  exact (final_union_bit_length_set (Str.lit "a.A") version_0_1
           (Iterable.Sequence two_fields) None false None [] None sample_union Hu).
Defined.

Lemma tag_bit_length_monotone_witness :
  UnionType_compute_tag_bit_length [uint16; int16] = Ok 8 ∧
  UnionType_compute_tag_bit_length
    ([uint16; int16] ++ [PrimitiveOrArrayType {[ 32 ]} 16]) = Ok 16 ∧
  8 <= 16.
Proof.
  assert (UnionType_compute_tag_bit_length [uint16; int16] = Ok 8) as H1
    by (vm_compute; reflexivity).
  assert (UnionType_compute_tag_bit_length
            ([uint16; int16] ++ [PrimitiveOrArrayType {[ 32 ]} 16]) = Ok 16) as H2
    by (vm_compute; reflexivity).
  split; [exact H1|]. split; [exact H2|].
  exact (tag_bit_length_monotone [uint16; int16]
           [PrimitiveOrArrayType {[ 32 ]} 16] 8 16 H1 H2).
Defined.

Lemma structure_iterate_yields_aligned_offsets_witness :
  constructed sample_mixed_structure ∧
  Forall (λ f, type_bit_length_set (attribute_data_type f) ≠ ∅)
    (fields sample_mixed_structure) ∧
  ∃ yielded,
    StructureType_iterate_fields_with_offsets sample_mixed_structure (Some {[ 1; 16 ]})
      = Ok yielded ∧
    yielded.*1 = fields sample_mixed_structure ∧
    (∀ f off, (f, off) ∈ yielded →
       ∀ x, x ∈ off →
         (N.pos (type_alignment_requirement (attribute_data_type f)) | x)) ∧
    (∀ f off, (f, off) ∈ yielded → off ≠ ∅).
Proof.
  assert (constructed sample_mixed_structure) as Hc by construct_mixed.
  assert (Forall (λ f, type_bit_length_set (attribute_data_type f) ≠ ∅)
            (fields sample_mixed_structure)) as Hall
    by (repeat constructor; vm_compute; discriminate).
  split; [exact Hc|]. split; [exact Hall|].
  destruct (structure_iterate_yields_aligned_offsets sample_mixed_structure
              (Some {[ 1; 16 ]}) Hc) as (yielded & Hy & Hfields & Haligned & Hne).
  exists yielded. split; [exact Hy|]. split; [exact Hfields|].
  split; [exact Haligned|]. exact (Hne Hall).
Defined.

Lemma structure_iterate_round_trip_witness :
  constructed sample_mixed_structure ∧
  class sample_mixed_structure = StructureTypeClass ∧
  ∃ yielded,
    StructureType_iterate_fields_with_offsets sample_mixed_structure None
      = Ok yielded ∧
    (∀ f off, yielded !! 0%nat = Some (f, off) → off = {[ 0 ]}) ∧
    (∀ i f off, yielded !! S i = Some (f, off) →
       off = pad_to_alignment (type_alignment_requirement (attribute_data_type f))
               (StructureType_aggregate_bit_length_sets
                  (attribute_data_type <$> take (S i) (fields sample_mixed_structure)))) ∧
    (∀ f off, last yielded = Some (f, off) →
       _aggregate_bit_length_sets sample_mixed_structure
       = Ok (add off (type_bit_length_set (attribute_data_type f)))).
Proof.
  assert (constructed sample_mixed_structure) as Hc by construct_mixed.
  split; [exact Hc|]. split; [reflexivity|].
  exact (structure_iterate_round_trip sample_mixed_structure Hc eq_refl).
Defined.

Lemma union_iterate_same_offset_witness :
  UnionType_init (Str.lit "a.A") version_0_1 (Iterable.Sequence two_fields) None
    true false None [] None = Ok sample_union ∧
  UnionType_iterate_fields_with_offsets sample_union (Some {[ 0; 4; 8 ]})
    = Ok [ (Field uint16 (Str.lit "_0"), {[ 8; 16 ]});
           (Field int16 (Str.lit "_1"), {[ 8; 16 ]}) ] ∧
  ∃ a : positive,
    alignment_requirement (union_base sample_union) = Ok a ∧
    [ (Field uint16 (Str.lit "_0"), ({[ 8; 16 ]} : gset N));
      (Field int16 (Str.lit "_1"), {[ 8; 16 ]}) ].*1
      = fields (union_base sample_union) ∧
    ∀ f off,
      (f, off) ∈ [ (Field uint16 (Str.lit "_0"), ({[ 8; 16 ]} : gset N));
                   (Field int16 (Str.lit "_1"), {[ 8; 16 ]}) ] →
      ∀ y, y ∈ off ↔
        ∃ x, x ∈ base_offset_or_zero (Some {[ 0; 4; 8 ]}) ∧
             y = pad_length a x + bit_length (tag_field_type sample_union).
Proof.
  assert (UnionType_init (Str.lit "a.A") version_0_1
            (Iterable.Sequence two_fields) None true false None [] None
          = Ok sample_union) as Hu by (vm_compute; reflexivity).
  assert (UnionType_iterate_fields_with_offsets sample_union (Some {[ 0; 4; 8 ]})
          = Ok [ (Field uint16 (Str.lit "_0"), {[ 8; 16 ]});
                 (Field int16 (Str.lit "_1"), {[ 8; 16 ]}) ]) as Hi
    by (vm_compute; reflexivity).
  split; [exact Hu|]. split; [exact Hi|].
  exact (union_iterate_same_offset (Str.lit "a.A") version_0_1
           (Iterable.Sequence two_fields) None true false None [] None sample_union
           (Some {[ 0; 4; 8 ]}) _ Hu Hi).
Defined.

Lemma union_iterate_returns_witness :
  UnionType_init (Str.lit "a.A") version_0_1 (Iterable.Sequence two_fields) None
    true false None [] None = Ok sample_union ∧
  Forall (λ f, is_power_of_two
                 (N.pos (type_alignment_requirement (attribute_data_type f))))
    (fields (union_base sample_union)) ∧
  ∃ yielded,
    UnionType_iterate_fields_with_offsets sample_union None = Ok yielded.
Proof.
  assert (UnionType_init (Str.lit "a.A") version_0_1
            (Iterable.Sequence two_fields) None true false None [] None
          = Ok sample_union) as Hu by (vm_compute; reflexivity).
  assert (Forall (λ f, is_power_of_two
                         (N.pos (type_alignment_requirement (attribute_data_type f))))
            (fields (union_base sample_union))) as Hpow
    by (repeat constructor; exists 0; reflexivity).
  split; [exact Hu|]. split; [exact Hpow|].
  exact (union_iterate_returns (Str.lit "a.A") version_0_1
           (Iterable.Sequence two_fields) None true false None [] None sample_union
           None Hu Hpow).
Defined.

Lemma union_of_list_has_no_padding_witness :
  UnionType_init (Str.lit "a.A") version_0_1 (Iterable.Sequence two_fields) None
    true false None [] None = Ok sample_union ∧
  attributes (union_base sample_union) = two_fields ∧
  Forall (λ a, is_PaddingField a = false ∧ attribute_name a ≠ [] ∧
               is_VoidType (attribute_data_type a) = false) two_fields ∧
  fields (union_base sample_union) = fields_except_padding (union_base sample_union).
Proof.
  assert (UnionType_init (Str.lit "a.A") version_0_1
            (Iterable.Sequence two_fields) None true false None [] None
          = Ok sample_union) as Hu by (vm_compute; reflexivity).
  split; [exact Hu|].
  exact (union_of_list_has_no_padding (Str.lit "a.A") version_0_1 two_fields None
           true false None [] None sample_union Hu).
Defined.

Lemma constructed_has_field_witness :
  (constructed sample_structure ∧ fields sample_structure ≠ []) ∧
  (fields_of (Iterable.items (Iterable.Sequence [Constant uint16 (Str.lit "A")])) = [] ∧
   ∃ e, CompositeType_init StructureTypeClass (Str.lit "a.A") version_0_1
          (Iterable.Sequence [Constant uint16 (Str.lit "A")]) None true false
          None [] None = Raise e).
Proof.
  assert (constructed sample_structure) as Hc
    by construct_sample StructureTypeClass true.
  destruct constructed_has_field as (Hfield & Hraise).
  split.
  - split; [exact Hc|]. exact (Hfield sample_structure Hc).
  - split; [reflexivity|].
    exact (Hraise StructureTypeClass (Str.lit "a.A") version_0_1
             (Iterable.Sequence [Constant uint16 (Str.lit "A")]) None true false
             None [] None eq_refl).
Defined.

End MoreExamples.
